(** * Morse beacon (Milestone35.py) and thermostat (Thermostat.py)

    A shallow embedding of the two controllers and the properties of
    their state machines, transmission loop and display/serial worker.

    Conventions of the embedding.
    - The [statemachine] library's declarative transitions
      ([off.to(dot) | dot.to(off)]) are kept as the list of (source, target)
      pairs they declare; firing an event looks the current state up in
      that list and raises [TransitionNotAllowed] when it is absent.
    - Hardware is state: an LED is a field of the machine record, the LCD
      is the text last written to it, the serial port is the list of
      payloads written so far.
    - [sleep d] advances a clock by [d] seconds; the durations of the
      source (0.25, 0.5, 0.75, 1.5, 3) are dyadic, so the rationals of
      [QArith] represent them exactly.
    - Text is [string]; characters are the 7-bit ASCII code points, which
      is the alphabet of the configured messages and of every string the
      thermostat formats.  Debug output on stdout is not modelled. *)

From Stdlib Require Import ZArith QArith Qround String Ascii List Bool Lia
  DecimalString DecimalZ DecimalPos PeanoNat Lqa.
Import ListNotations.

(** ** A small error monad: a call either returns or raises. *)

Inductive Result (E A : Type) : Type :=
| Ok (a : A)
| Raise (e : E).
Arguments Ok {E A} a.
Arguments Raise {E A} e.

Definition bind {E A B} (r : Result E A) (k : A -> Result E B) : Result E B :=
  match r with
  | Ok a => k a
  | Raise e => Raise e
  end.

Notation "x <- c1 ;; c2" := (bind c1 (fun x => c2))
  (at level 61, c1 at next level, right associativity).

(** ** Strings as Python uses them here *)

Definition nl : string := String (ascii_of_nat 10) EmptyString.

(** [str.split()] with no argument: the maximal runs of non-whitespace
    characters.  The ASCII characters for which [str.isspace] holds are
    tab, line feed, vertical tab, form feed, carriage return, the four
    separators 28..31 and the space. *)
Definition isspace (c : ascii) : bool :=
  let n := nat_of_ascii c in
  ((9 <=? n) && (n <=? 13)) || ((28 <=? n) && (n <=? 32)).

Fixpoint split_from (cur : list ascii) (s : list ascii) : list (list ascii) :=
  match s with
  | [] => match cur with [] => [] | _ => [rev cur] end
  | c :: rest =>
      if isspace c
      then match cur with
           | [] => split_from [] rest
           | _ => rev cur :: split_from [] rest
           end
      else split_from (c :: cur) rest
  end.

Definition split (s : string) : list (list ascii) :=
  split_from [] (list_ascii_of_string s).

(** [str.upper()] on ASCII text: a..z go to A..Z, the rest is unchanged. *)
Definition char_upper (c : ascii) : ascii :=
  let n := nat_of_ascii c in
  if (97 <=? n) && (n <=? 122) then ascii_of_nat (n - 32) else c.

Definition upper (w : list ascii) : list ascii := map char_upper w.

(** A [dict] with character keys, in declaration order, and [dict.get]
    with a default. *)
Fixpoint dict_get {V} (d : list (ascii * V)) (k : ascii) (default : V) : V :=
  match d with
  | [] => default
  | (k', v) :: rest => if Ascii.eqb k' k then v else dict_get rest k default
  end.

Fixpoint dict_mem {V} (d : list (ascii * V)) (k : ascii) : bool :=
  match d with
  | [] => false
  | (k', _) :: rest => Ascii.eqb k' k || dict_mem rest k
  end.

(** * The beacon: [CWMachine] *)

Module Beacon.

Inductive State : Type :=
| off | dot | dash | dotDashPause | letterPause | wordPause.

Inductive Event : Type :=
| doDot | doDash | doDDP | doLP | doWP | goOff.

Definition State_eqb (a b : State) : bool :=
  match a, b with
  | off, off | dot, dot | dash, dash
  | dotDashPause, dotDashPause | letterPause, letterPause
  | wordPause, wordPause => true
  | _, _ => false
  end.

(** The transitions each event declares, in the order of the source. *)
Definition transitions (e : Event) : list (State * State) :=
  match e with
  | doDot => [(off, dot); (dot, off)]
  | doDash => [(off, dash); (dash, off)]
  | doDDP => [(off, dotDashPause); (dot, dotDashPause);
              (dash, dotDashPause); (dotDashPause, off)]
  | doLP => [(off, letterPause); (dotDashPause, letterPause);
             (letterPause, off)]
  | doWP => [(off, wordPause); (letterPause, wordPause); (wordPause, off)]
  | goOff => [(dot, off); (dash, off); (dotDashPause, off);
              (letterPause, off); (wordPause, off)]
  end.

Fixpoint target (ts : list (State * State)) (s : State) : option State :=
  match ts with
  | [] => None
  | (src, dst) :: rest => if State_eqb src s then Some dst else target rest s
  end.

(** The exception the library raises for an event with no transition from
    the current state (the specification calls it InvalidTransition). *)
Inductive Error : Type :=
| TransitionNotAllowed (e : Event) (s : State).

(** One [key: value] entry of a dictionary literal. *)
Definition item (k : ascii) (v : string) : ascii * string := (k, v).

Definition morseDict : list (ascii * string) :=
  [ item "A" ".-"; item "B" "-..."; item "C" "-.-."; item "D" "-.."; item "E" ".";
    item "F" "..-."; item "G" "--."; item "H" "...."; item "I" ".."; item "J" ".---";
    item "K" "-.-"; item "L" ".-.."; item "M" "--"; item "N" "-."; item "O" "---";
    item "P" ".--."; item "Q" "--.-"; item "R" ".-."; item "S" "..."; item "T" "-";
    item "U" "..-"; item "V" "...-"; item "W" ".--"; item "X" "-..-"; item "Y" "-.--";
    item "Z" "--.."; item "0" "-----"; item "1" ".----"; item "2" "..---";
    item "3" "...--"; item "4" "....-"; item "5" "....."; item "6" "-...."; item "7" "--...";
    item "8" "---.."; item "9" "----." ].

Definition message1 : string := "SOS".
Definition message2 : string := "OK".

(** The machine with everything it owns.  [lcd] is the text on the
    display ([None] when cleared), [released] counts the calls of
    [cleanupDisplay], [clock] is the time spent in [sleep] and [fired]
    the events fired so far, oldest first. *)
Record CWMachine : Type := mkCW {
  current_state : State;
  redLight : bool;
  blueLight : bool;
  activeMessage : string;
  lcd : option string;
  released : nat;
  clock : Q;
  fired : list Event
}.

Definition init (msg : string) : CWMachine :=
  mkCW off false false msg None 0 0 [].

Definition set_state (s : State) (m : CWMachine) : CWMachine :=
  mkCW s (redLight m) (blueLight m) (activeMessage m) (lcd m) (released m)
       (clock m) (fired m).

Definition set_redLight (b : bool) (m : CWMachine) : CWMachine :=
  mkCW (current_state m) b (blueLight m) (activeMessage m) (lcd m)
       (released m) (clock m) (fired m).

Definition set_blueLight (b : bool) (m : CWMachine) : CWMachine :=
  mkCW (current_state m) (redLight m) b (activeMessage m) (lcd m)
       (released m) (clock m) (fired m).

Definition set_activeMessage (s : string) (m : CWMachine) : CWMachine :=
  mkCW (current_state m) (redLight m) (blueLight m) s (lcd m)
       (released m) (clock m) (fired m).

Definition sleep (d : Q) (m : CWMachine) : CWMachine :=
  mkCW (current_state m) (redLight m) (blueLight m) (activeMessage m) (lcd m)
       (released m) (clock m + d) (fired m).

Definition log (e : Event) (m : CWMachine) : CWMachine :=
  mkCW (current_state m) (redLight m) (blueLight m) (activeMessage m) (lcd m)
       (released m) (clock m) (fired m ++ [e]).

(** [ManagedDisplay.updateScreen] and [ManagedDisplay.cleanupDisplay]. *)
Definition updateScreen (message : string) (m : CWMachine) : CWMachine :=
  mkCW (current_state m) (redLight m) (blueLight m) (activeMessage m)
       (Some message) (released m) (clock m) (fired m).

Definition cleanupDisplay (m : CWMachine) : CWMachine :=
  mkCW (current_state m) (redLight m) (blueLight m) (activeMessage m)
       None (S (released m)) (clock m) (fired m).

(** The [on_enter_*] and [on_exit_*] actions. *)
Definition on_enter (s : State) (m : CWMachine) : CWMachine :=
  match s with
  | off => m
  | dot => sleep (1#2) (set_redLight true m)
  | dash => sleep (3#2) (set_blueLight true m)
  | dotDashPause => sleep (1#4) m
  | letterPause => sleep (3#4) m
  | wordPause => sleep 3 m
  end.

Definition on_exit (s : State) (m : CWMachine) : CWMachine :=
  match s with
  | dot => set_redLight false m
  | dash => set_blueLight false m
  | _ => m
  end.

(** Firing an event: exit action of the source, state change, entry
    action of the target; or the library's exception. *)
Definition fire (e : Event) (m : CWMachine) : Result Error CWMachine :=
  match target (transitions e) (current_state m) with
  | None => Raise (TransitionNotAllowed e (current_state m))
  | Some dst =>
      Ok (on_enter dst (set_state dst (on_exit (current_state m) (log e m))))
  end.

(** [toggleMessage] (and [processButton], which only calls it). *)
Definition toggleMessage (m : CWMachine) : CWMachine :=
  set_activeMessage
    (if String.eqb (activeMessage m) message1 then message2 else message1) m.

Definition processButton (m : CWMachine) : CWMachine := toggleMessage m.

(** [if self.current_state != self.off: self.goOff()] *)
Definition return_to_off (m : CWMachine) : Result Error CWMachine :=
  if State_eqb (current_state m) off then Ok m else fire goOff m.

(** The three nested [for] loops of [transmit], each with the counter the
    source keeps next to it. *)
Fixpoint symbol_loop (morse : list ascii) (lenMorse morseCounter : nat)
    (m : CWMachine) : Result Error (nat * CWMachine) :=
  match morse with
  | [] => Ok (morseCounter, m)
  | symbol :: rest =>
      m1 <- return_to_off m ;;
      m2 <- (if Ascii.eqb symbol "." then fire doDot m1
             else if Ascii.eqb symbol "-" then fire doDash m1
             else Ok m1) ;;
      if morseCounter <? lenMorse
      then m3 <- return_to_off m2 ;;
           m4 <- fire doDDP m3 ;;
           symbol_loop rest lenMorse (S morseCounter) m4
      else symbol_loop rest lenMorse morseCounter m2
  end.

Definition do_char (char : ascii) (m : CWMachine)
    : Result Error (nat * CWMachine) :=
  let morse := list_ascii_of_string (dict_get morseDict char ""%string) in
  symbol_loop morse (List.length morse) 1 m.

Fixpoint char_loop (chars : list ascii) (lenWord wordCounter : nat)
    (m : CWMachine) : Result Error (nat * CWMachine) :=
  match chars with
  | [] => Ok (wordCounter, m)
  | char :: rest =>
      r <- do_char char m ;;
      let m1 := snd r in
      if wordCounter <? lenWord
      then m2 <- return_to_off m1 ;;
           m3 <- fire doLP m2 ;;
           char_loop rest lenWord (S wordCounter) m3
      else char_loop rest lenWord wordCounter m1
  end.

Definition do_word (word : list ascii) (m : CWMachine)
    : Result Error (nat * CWMachine) :=
  char_loop (upper word) (List.length word) 1 m.

Fixpoint word_loop (wordList : list (list ascii)) (lenWords wordsCounter : nat)
    (m : CWMachine) : Result Error (nat * CWMachine) :=
  match wordList with
  | [] => Ok (wordsCounter, m)
  | word :: rest =>
      r <- do_word word m ;;
      let m1 := snd r in
      if wordsCounter <? lenWords
      then m2 <- return_to_off m1 ;;
           m3 <- fire doWP m2 ;;
           word_loop rest lenWords (S wordsCounter) m3
      else word_loop rest lenWords wordsCounter m1
  end.

(** One iteration of [while not self.endTransmission]: the body. *)
Definition transmit_pass (m : CWMachine) : Result Error CWMachine :=
  let m0 := updateScreen ("Sending:" ++ nl ++ activeMessage m) m in
  let wordList := split (activeMessage m0) in
  r <- word_loop wordList (List.length wordList) 1 m0 ;;
  Ok (snd r).

(** The main thread sets [endTransmission] once, at time [t0] of the
    clock, and never clears it: the flag the loop reads at time [now]. *)
Definition endTransmission (t0 now : Q) : bool := Qle_bool t0 now.

(** [transmit]: the [while] loop, then [cleanupDisplay].  [None] is a
    loop still running when the fuel is used up; an exception ends the
    thread without the cleanup. *)
Fixpoint transmit (fuel : nat) (t0 : Q) (m : CWMachine)
    : option (Result Error CWMachine) :=
  match fuel with
  | O => None
  | S fuel' =>
      if endTransmission t0 (clock m)
      then Some (Ok (cleanupDisplay m))
      else match transmit_pass m with
           | Ok m' => transmit fuel' t0 m'
           | Raise e => Some (Raise e)
           end
  end.

End Beacon.

(** * The thermostat: [TemperatureMachine] *)

(** [f"{n}"] for an integer. *)
Definition dec (n : Z) : string := NilZero.string_of_int (Z.to_int n).

(** [str.ljust(width)]: pad with spaces on the right. *)
Fixpoint spaces (n : nat) : string :=
  match n with
  | O => EmptyString
  | S k => String " " (spaces k)
  end.

Definition ljust (s : string) (width : nat) : string :=
  (s ++ spaces (width - String.length s))%string.

(** [str.title()] on ASCII text: a letter that follows a letter is
    lowered, any other letter is raised. *)
Definition char_lower (c : ascii) : ascii :=
  let n := nat_of_ascii c in
  if (65 <=? n) && (n <=? 90) then ascii_of_nat (n + 32) else c.

Definition isalpha (c : ascii) : bool :=
  let n := nat_of_ascii c in
  ((65 <=? n) && (n <=? 90)) || ((97 <=? n) && (n <=? 122)).

Fixpoint title_from (after_letter : bool) (s : string) : string :=
  match s with
  | EmptyString => EmptyString
  | String c rest =>
      if isalpha c
      then String (if after_letter then char_lower c else char_upper c)
                  (title_from true rest)
      else String c (title_from false rest)
  end.

Definition title (s : string) : string := title_from false s.

Module Thermostat.

Inductive State : Type := off | heat | cool.

(** [State.id]: the attribute name of the state. *)
Definition id (s : State) : string :=
  match s with
  | off => "off"
  | heat => "heat"
  | cool => "cool"
  end.

Definition State_eqb (a b : State) : bool :=
  match a, b with
  | off, off | heat, heat | cool, cool => true
  | _, _ => false
  end.

Inductive Event : Type := cycle.

Definition transitions (e : Event) : list (State * State) :=
  match e with
  | cycle => [(off, heat); (heat, cool); (cool, off)]
  end.

Fixpoint target (ts : list (State * State)) (s : State) : option State :=
  match ts with
  | [] => None
  | (src, dst) :: rest => if State_eqb src s then Some dst else target rest s
  end.

Inductive Error : Type :=
| TransitionNotAllowed (e : Event) (s : State).

(** What a [PWMLED] is doing. *)
Inductive Led : Type :=
| LedOff
| LedOn
| LedPulse (fade_in_time fade_out_time : Z).

(** The machine, the two LEDs it drives and the number of sensor reads
    made so far. *)
Record TemperatureMachine : Type := mkTM {
  current_state : State;
  setPoint : Z;
  redLight : Led;
  blueLight : Led;
  reads : nat
}.

Definition set_state (s : State) (m : TemperatureMachine) :=
  mkTM s (setPoint m) (redLight m) (blueLight m) (reads m).
Definition set_setPoint (p : Z) (m : TemperatureMachine) :=
  mkTM (current_state m) p (redLight m) (blueLight m) (reads m).
Definition set_redLight (l : Led) (m : TemperatureMachine) :=
  mkTM (current_state m) (setPoint m) l (blueLight m) (reads m).
Definition set_blueLight (l : Led) (m : TemperatureMachine) :=
  mkTM (current_state m) (setPoint m) (redLight m) l (reads m).

(** The three buttons wired at the bottom of the script. *)
Inductive Button : Type := greenButton | redButton | blueButton.

(** The local variables of [manageMyDisplay] with the devices it writes:
    the text on the LCD, the payloads written to the serial port (oldest
    first), the time slept and the number of loop iterations done. *)
Record Worker : Type := mkWorker {
  machine : TemperatureMachine;
  counter : Z;
  altCounter : Z;
  lcd : option string;
  serial : list string;
  clock : Q;
  ticks : nat
}.

Section Environment.

(** The environment: the Celsius value the sensor returns at its n-th
    access, the text [datetime.now().strftime("%Y-%m-%d %H:%M")] gives in
    the n-th loop iteration, and the buttons pressed before it. *)
Variable thSensor : nat -> Q.
Variable now : nat -> string.
Variable presses : nat -> list Button.

(** [getFahrenheit]: [((9/5)*c) + 32], on exact rationals. *)
Definition getFahrenheit (m : TemperatureMachine) : Q * TemperatureMachine :=
  let c := thSensor (reads m) in
  ((9#5) * c + 32,
   mkTM (current_state m) (setPoint m) (redLight m) (blueLight m)
        (S (reads m))).

Definition updateLights (m : TemperatureMachine) : TemperatureMachine :=
  let (f, m1) := getFahrenheit m in
  let temp := Qfloor f in
  let m2 := set_blueLight LedOff (set_redLight LedOff m1) in
  if String.eqb (id (current_state m2)) "heat" then
    if (temp <? setPoint m2)%Z
    then set_redLight (LedPulse 1 1) m2
    else set_redLight LedOn m2
  else if String.eqb (id (current_state m2)) "cool" then
    if (temp >? setPoint m2)%Z
    then set_blueLight (LedPulse 1 1) m2
    else set_blueLight LedOn m2
  else m2.

Definition on_enter (s : State) (m : TemperatureMachine) : TemperatureMachine :=
  match s with
  | heat => updateLights m
  | cool => updateLights m
  | off => updateLights m
  end.

Definition on_exit (s : State) (m : TemperatureMachine) : TemperatureMachine :=
  match s with
  | heat => set_redLight LedOff m
  | cool => set_blueLight LedOff m
  | off => m
  end.

Definition fire (e : Event) (m : TemperatureMachine)
    : Result Error TemperatureMachine :=
  match target (transitions e) (current_state m) with
  | None => Raise (TransitionNotAllowed e (current_state m))
  | Some dst => Ok (on_enter dst (set_state dst (on_exit (current_state m) m)))
  end.

(** The button callbacks. *)
Definition processTempStateButton (m : TemperatureMachine)
    : Result Error TemperatureMachine :=
  m1 <- fire cycle m ;;
  Ok (updateLights m1).

Definition processTempIncButton (m : TemperatureMachine) : TemperatureMachine :=
  updateLights (set_setPoint (setPoint m + 1) m).

Definition processTempDecButton (m : TemperatureMachine) : TemperatureMachine :=
  updateLights (set_setPoint (setPoint m - 1) m).

(** A press as the worker sees it: an exception in a callback ends the
    callback and leaves the machine as it was. *)
Definition press (b : Button) (m : TemperatureMachine) : TemperatureMachine :=
  match b with
  | greenButton => match processTempStateButton m with
                   | Ok m' => m'
                   | Raise _ => m
                   end
  | redButton => processTempIncButton m
  | blueButton => processTempDecButton m
  end.

Definition setupSerialOutput (m : TemperatureMachine)
    : string * TemperatureMachine :=
  let (f, m1) := getFahrenheit m in
  let temp := Qfloor f in
  ((id (current_state m1) ++ "," ++ dec temp ++ "," ++ dec (setPoint m1))%string,
   m1).

(** The second LCD line and what choosing it does to the machine and to
    [altCounter]. *)
Definition second_line (m : TemperatureMachine) (altCounter : Z)
    : string * TemperatureMachine * Z :=
  if (altCounter <? 6)%Z then
    let (f, m1) := getFahrenheit m in
    let temp := Qfloor f in
    (ljust ("Temp:" ++ dec temp ++ "F") 16, m1, altCounter)
  else
    let state_name := title (id (current_state m)) in
    let lcd_line_2 := ljust (state_name ++ ":" ++ dec (setPoint m) ++ "F") 16 in
    if (altCounter >=? 11)%Z
    then (lcd_line_2, updateLights m, 1%Z)
    else (lcd_line_2, m, altCounter).

(** One iteration of [while not self.endDisplay]. *)
Definition tick (w : Worker) : Worker :=
  let lcd_line_1 := now (ticks w) in
  let '(lcd_line_2, m1, alt1) := second_line (machine w) (altCounter w) in
  let shown := (lcd_line_1 ++ nl ++ lcd_line_2)%string in
  let alt2 := (alt1 + 1)%Z in
  if (counter w mod 30 =? 0)%Z then
    let (record, m2) := setupSerialOutput m1 in
    mkWorker m2 1 alt2 (Some shown) (serial w ++ [(record ++ nl)%string])
             (clock w + 1) (S (ticks w))
  else
    mkWorker m1 (counter w + 1) alt2 (Some shown) (serial w)
             (clock w + 1) (S (ticks w)).

Definition start (m : TemperatureMachine) : Worker :=
  mkWorker m 1 1 None [] 0 0.

Definition pressed (bs : list Button) (w : Worker) : Worker :=
  mkWorker (fold_left (fun m b => press b m) bs (machine w))
           (counter w) (altCounter w) (lcd w) (serial w) (clock w) (ticks w).

(** The worker after [n] iterations, the buttons of [presses k] being
    pressed between iteration [k] and iteration [k + 1]. *)
Fixpoint run (m : TemperatureMachine) (n : nat) : Worker :=
  match n with
  | O => start m
  | S k => tick (pressed (presses k) (run m k))
  end.

End Environment.

End Thermostat.

(** * What is observed of a run

    The measures the properties below are stated with: they are not part
    of the programs. *)

Module BeaconObs.
Import Beacon.

(** The state an event enters when fired from [off]. *)
Definition entered (e : Event) : State :=
  match e with
  | doDot => dot
  | doDash => dash
  | doDDP => dotDashPause
  | doLP => letterPause
  | doWP => wordPause
  | goOff => off
  end.

(** The hold of a state: the time its entry action sleeps. *)
Definition hold (s : State) : Q :=
  match s with
  | off => 0
  | dot => 1#2
  | dash => 3#2
  | dotDashPause => 1#4
  | letterPause => 3#4
  | wordPause => 3
  end.

Definition is_signal (e : Event) : bool :=
  match e with
  | doDot | doDash => true
  | _ => false
  end.

Definition signals (es : list Event) : list Event := filter is_signal es.

(** What one legal step leaves alone and what it adds: [d] seconds on
    the clock and the signal events [evs]. *)
Definition advances (m m' : CWMachine) (d : Q) (evs : list Event) : Prop :=
  activeMessage m' = activeMessage m /\
  released m' = released m /\
  lcd m' = lcd m /\
  clock m' == clock m + d /\
  signals (fired m') = signals (fired m) ++ evs.

Definition symbol_hold (symbol : ascii) : Q :=
  if Ascii.eqb symbol "." then hold dot
  else if Ascii.eqb symbol "-" then hold dash
  else 0.

Definition symbol_signal (symbol : ascii) : list Event :=
  if Ascii.eqb symbol "." then [doDot]
  else if Ascii.eqb symbol "-" then [doDash]
  else [].

Fixpoint symbol_time (morse : list ascii) (lenMorse morseCounter : nat) : Q :=
  match morse with
  | [] => 0
  | symbol :: rest =>
      symbol_hold symbol +
      (if morseCounter <? lenMorse
       then hold dotDashPause + symbol_time rest lenMorse (S morseCounter)
       else symbol_time rest lenMorse morseCounter)
  end.

Definition morse_of (char : ascii) : list ascii :=
  list_ascii_of_string (dict_get morseDict char ""%string).

Definition char_time (char : ascii) : Q :=
  symbol_time (morse_of char) (List.length (morse_of char)) 1.

Definition char_signals (char : ascii) : list Event :=
  flat_map symbol_signal (morse_of char).

Fixpoint chars_time (chars : list ascii) (lenWord wordCounter : nat) : Q :=
  match chars with
  | [] => 0
  | char :: rest =>
      char_time char +
      (if wordCounter <? lenWord
       then hold letterPause + chars_time rest lenWord (S wordCounter)
       else chars_time rest lenWord wordCounter)
  end.

Definition word_time (word : list ascii) : Q :=
  chars_time (upper word) (List.length word) 1.

Definition word_signals (word : list ascii) : list Event :=
  flat_map char_signals (upper word).

Fixpoint words_time (wordList : list (list ascii)) (lenWords wordsCounter : nat)
    : Q :=
  match wordList with
  | [] => 0
  | word :: rest =>
      word_time word +
      (if wordsCounter <? lenWords
       then hold wordPause + words_time rest lenWords (S wordsCounter)
       else words_time rest lenWords wordsCounter)
  end.

(** The duration of one pass over a message and the dots and dashes it
    sends. *)
Definition pass_time (msg : string) : Q :=
  words_time (split msg) (List.length (split msg)) 1.

Definition pass_signals (msg : string) : list Event :=
  flat_map word_signals (split msg).

Definition Q_of_nat (n : nat) : Q := inject_Z (Z.of_nat n).

(** The events of a log that enter a signal or gap state: all but the
    idle returns. *)
Definition is_goOff (e : Event) : bool :=
  match e with
  | goOff => true
  | _ => false
  end.

Definition actions (es : list Event) : list Event :=
  filter (fun e => negb (is_goOff e)) es.

(** The blocks of events with one [gap] between two neighbours, and none
    before the first or after the last. *)
Fixpoint between (gap : Event) (blocks : list (list Event)) : list Event :=
  match blocks with
  | [] => []
  | b :: rest =>
      match rest with
      | [] => b
      | _ => b ++ gap :: between gap rest
      end
  end.

(** The Morse encoding of a character, a word and a message as a sequence
    of signal and gap events. *)
Definition encode_char (char : ascii) : list Event :=
  between doDDP (map symbol_signal (morse_of char)).

Definition encode_word (word : list ascii) : list Event :=
  between doLP (map encode_char (upper word)).

Definition encode (msg : string) : list Event :=
  between doWP (map encode_word (split msg)).


(** A log that starts with an idle return when [expect_off] holds, with
    another event otherwise, and goes on in turns. *)
Fixpoint alternates (expect_off : bool) (es : list Event) : bool :=
  match es with
  | [] => true
  | e :: rest =>
      Bool.eqb (is_goOff e) expect_off && alternates (negb expect_off) rest
  end.

(** The log alternates from its first event on, and the machine is idle
    exactly when the next event due is not an idle return. *)
Definition in_step (m : CWMachine) : Prop :=
  alternates false (fired m) = true /\
  State_eqb (current_state m) off = Nat.even (List.length (fired m)).

(** The red LED is lit exactly in [dot], the blue one exactly in [dash]. *)
Definition leds_follow (m : CWMachine) : Prop :=
  redLight m = State_eqb (current_state m) dot /\
  blueLight m = State_eqb (current_state m) dash.

(** The shape the three loops of [transmit] share: run the body on each
    item and, while the counter is below the length, return to idle and
    fire the gap event. *)
Fixpoint gap_loop {A} (body : A -> CWMachine -> Result Error CWMachine)
    (gap : Event) (items : list A) (len counter : nat) (m : CWMachine)
    : Result Error (nat * CWMachine) :=
  match items with
  | [] => Ok (counter, m)
  | x :: rest =>
      m1 <- body x m ;;
      if counter <? len
      then m2 <- return_to_off m1 ;;
           m3 <- fire gap m2 ;;
           gap_loop body gap rest len (S counter) m3
      else gap_loop body gap rest len counter m1
  end.

Definition symbol_body (symbol : ascii) (m : CWMachine)
    : Result Error CWMachine :=
  m1 <- return_to_off m ;;
  if Ascii.eqb symbol "." then fire doDot m1
  else if Ascii.eqb symbol "-" then fire doDash m1
  else Ok m1.

Definition char_body (char : ascii) (m : CWMachine) : Result Error CWMachine :=
  r <- do_char char m ;; Ok (snd r).

Definition word_body (word : list ascii) (m : CWMachine)
    : Result Error CWMachine :=
  r <- do_word word m ;; Ok (snd r).




(** The active message after [n] presses of the button. *)
Fixpoint pressed_times (n : nat) (m : CWMachine) : CWMachine :=
  match n with
  | O => m
  | S k => processButton (pressed_times k m)
  end.

End BeaconObs.

Module ThermostatObs.
Import Thermostat.

(** The ring the cycle event walks. *)
Definition ring (s : State) : State :=
  match s with
  | off => heat
  | heat => cool
  | cool => off
  end.

(** The two contents of the second LCD line. *)
Definition temp_line (f : Q) : string :=
  ljust ("Temp:" ++ dec (Qfloor f) ++ "F") 16.

Definition mode_line (s : State) (p : Z) : string :=
  ljust (title (id s) ++ ":" ++ dec p ++ "F") 16.

(** Iteration [t] of the worker loop, counted from 0, renders the
    temperature when [temp_tick t] holds: tick number [t + 1]. *)
Definition temp_tick (t : nat) : bool :=
  (t =? 0)%nat || ((t - 1) mod 10 <=? 3)%nat.

(** An LED that is not off: steady or pulsing. *)
Definition lit (l : Led) : bool :=
  match l with
  | LedOff => false
  | _ => true
  end.

(** The red LED is lit exactly in [heat], the blue one exactly in
    [cool]. *)
Definition lights_follow (m : TemperatureMachine) : Prop :=
  lit (redLight m) = State_eqb (current_state m) heat /\
  lit (blueLight m) = State_eqb (current_state m) cool.

(** The red and the blue LED for a state, a setpoint and a floored
    temperature. *)
Definition lights_for (s : State) (p temp : Z) : Led * Led :=
  match s with
  | off => (LedOff, LedOff)
  | heat => (if (temp <? p)%Z then LedPulse 1 1 else LedOn, LedOff)
  | cool => (LedOff, if (temp >? p)%Z then LedPulse 1 1 else LedOn)
  end.

Definition Button_eqb (a b : Button) : bool :=
  match a, b with
  | greenButton, greenButton | redButton, redButton
  | blueButton, blueButton => true
  | _, _ => false
  end.

(** How often a button occurs in a sequence of presses. *)
Definition count (b : Button) (bs : list Button) : nat :=
  List.length (filter (Button_eqb b) bs).

(** Iteration [t] of the worker loop, counted from 0, calls
    [updateLights] when [refresh_tick t] holds. *)
Definition refresh_tick (t : nat) : bool :=
  (0 <? t)%nat && (t mod 10 =? 0)%nat.

Fixpoint has_comma (s : string) : bool :=
  match s with
  | EmptyString => false
  | String c rest => Ascii.eqb c "," || has_comma rest
  end.

Section Environment.

Variable thSensor : nat -> Q.
Variable now : nat -> string.
Variable presses : nat -> list Button.

(** The Fahrenheit value of the n-th sensor access. *)
Definition fahrenheit_at (n : nat) : Q := (9#5) * thSensor n + 32.

(** The record of an emission, read off the machine the iteration
    leaves: its state, the value of the sensor access it just made, and
    its setpoint. *)
Definition record_of (m : TemperatureMachine) : string :=
  (id (current_state m) ++ "," ++
   dec (Qfloor (fahrenheit_at (pred (reads m)))) ++ "," ++
   dec (setPoint m))%string.

(** The worker started on machine [m], after [k] iterations and as
    iteration [k] finds it. *)
Definition after (m : TemperatureMachine) (k : nat) : Worker :=
  run thSensor now presses m k.
Definition before (m : TemperatureMachine) (k : nat) : Worker :=
  pressed thSensor (presses k) (after m k).

End Environment.

(** A room at 20 degrees Celsius (68 Fahrenheit), a fixed wall clock, and
    the green button pressed once before the fourth tick. *)
Definition room (c : Q) (n : nat) : Q := c.
Definition wallclock (n : nat) : string := "2024-01-01 00:00".
Definition one_press (k : nat) : list Button :=
  if (k =? 3)%nat then [greenButton] else [].
Definition quiet (k : nat) : list Button := [].
Definition machine0 : TemperatureMachine := mkTM off 72 LedOff LedOff 0.

End ThermostatObs.

(** * Properties of the beacon *)

Module BeaconFacts.
Import Beacon BeaconObs.

(** ** The transition table *)

Lemma State_eqb_eq (a b : State) : State_eqb a b = true <-> a = b.
Proof. destruct a, b; simpl; split; congruence. Qed.

Lemma on_enter_clock (s : State) (m : CWMachine) :
  clock (on_enter s m) == clock m + hold s.
Proof. destruct s; simpl; lra. Qed.

Lemma advances_refl (m : CWMachine) : advances m m 0 [].
Proof.
  unfold advances. repeat split; try reflexivity.
  - lra.
  - now rewrite app_nil_r.
Qed.

Lemma advances_trans (m1 m2 m3 : CWMachine) d1 d2 e1 e2 :
  advances m1 m2 d1 e1 -> advances m2 m3 d2 e2 ->
  advances m1 m3 (d1 + d2) (e1 ++ e2).
Proof.
  intros (A1 & R1 & L1 & C1 & S1) (A2 & R2 & L2 & C2 & S2).
  unfold advances. repeat split; try congruence.
  - rewrite C2, C1. lra.
  - rewrite S2, S1. now rewrite app_assoc.
Qed.

Lemma advances_eq (m m' : CWMachine) d d' evs evs' :
  advances m m' d evs -> d == d' -> evs = evs' -> advances m m' d' evs'.
Proof.
  intros (A & R & L & C & S) Hd He. subst evs'.
  unfold advances. repeat split; try assumption. rewrite C. lra.
Qed.

(** From [off] every event but the idle return is legal. *)
Lemma fire_from_off (e : Event) (m : CWMachine) :
  current_state m = off -> e <> goOff ->
  exists m', fire e m = Ok m' /\ current_state m' = entered e /\
             advances m m' (hold (entered e)) (signals [e]).
Proof.
  intros Hs He. unfold fire. rewrite Hs.
  destruct e; try congruence; simpl;
    (eexists; split; [reflexivity|]; split; [reflexivity|]);
    unfold advances, signals; simpl; rewrite filter_app; simpl;
    repeat split; try reflexivity; try lra; now rewrite ?app_nil_r.
Qed.

(** The idle return is legal from every other state and costs no time. *)
Lemma goOff_from_busy (m : CWMachine) :
  current_state m <> off ->
  exists m', fire goOff m = Ok m' /\ current_state m' = off /\
             advances m m' 0 [].
Proof.
  intros Hs. unfold fire.
  destruct (current_state m) eqn:E; try congruence; simpl;
    (eexists; split; [reflexivity|]; split; [reflexivity|]);
    unfold advances, signals; simpl; rewrite filter_app; simpl;
    repeat split; try reflexivity; try lra; now rewrite ?app_nil_r.
Qed.

Lemma return_to_off_spec (m : CWMachine) :
  exists m', return_to_off m = Ok m' /\ current_state m' = off /\
             advances m m' 0 [].
Proof.
  unfold return_to_off. destruct (State_eqb (current_state m) off) eqn:E.
  - apply State_eqb_eq in E. exists m. repeat split; try assumption.
    + lra.
    + now rewrite app_nil_r.
  - apply goOff_from_busy. intro H. apply State_eqb_eq in H. congruence.
Qed.

Lemma off_then_fire (e : Event) (m : CWMachine) :
  e <> goOff ->
  exists m', (m1 <- return_to_off m ;; fire e m1) = Ok m' /\
             current_state m' = entered e /\
             advances m m' (hold (entered e)) (signals [e]).
Proof.
  intros He. destruct (return_to_off_spec m) as (m1 & E1 & S1 & A1).
  rewrite E1. simpl.
  destruct (fire_from_off e m1 S1 He) as (m2 & E2 & S2 & A2).
  exists m2. split; [exact E2|]. split; [exact S2|].
  eapply advances_eq;
    [exact (advances_trans _ _ _ _ _ _ _ A1 A2) | lra | reflexivity].
Qed.

(** ** What one pass of the message costs and sends *)

Lemma symbol_step (symbol : ascii) (m : CWMachine) :
  current_state m = off ->
  exists m',
    (if Ascii.eqb symbol "." then fire doDot m
     else if Ascii.eqb symbol "-" then fire doDash m
     else Ok m) = Ok m' /\
    advances m m' (symbol_hold symbol) (symbol_signal symbol).
Proof.
  intros Hs. unfold symbol_hold, symbol_signal.
  destruct (Ascii.eqb symbol ".").
  - destruct (fire_from_off doDot m Hs) as (m' & E & _ & A); [discriminate|].
    exists m'. split; assumption.
  - destruct (Ascii.eqb symbol "-").
    + destruct (fire_from_off doDash m Hs) as (m' & E & _ & A); [discriminate|].
      exists m'. split; assumption.
    + exists m. split; [reflexivity | apply advances_refl].
Qed.

Lemma symbol_loop_spec (morse : list ascii) :
  forall lenMorse morseCounter m,
  exists n m',
    symbol_loop morse lenMorse morseCounter m = Ok (n, m') /\
    advances m m' (symbol_time morse lenMorse morseCounter)
             (flat_map symbol_signal morse).
Proof.
  induction morse as [|symbol rest IH]; intros lenMorse morseCounter m.
  - exists morseCounter, m. split; [reflexivity | apply advances_refl].
  - cbn [symbol_loop symbol_time flat_map].
    destruct (return_to_off_spec m) as (m1 & E1 & S1 & A1).
    rewrite E1. cbn [bind].
    destruct (symbol_step symbol m1 S1) as (m2 & E2 & A2).
    rewrite E2. cbn [bind].
    pose proof (advances_trans _ _ _ _ _ _ _ A1 A2) as A12.
    destruct (morseCounter <? lenMorse).
    + destruct (off_then_fire doDDP m2) as (m4 & E4 & _ & A4); [discriminate|].
      destruct (return_to_off m2) as [m3|]; [|discriminate].
      cbn [bind] in E4 |- *. rewrite E4. cbn [bind].
      destruct (IH lenMorse (S morseCounter) m4) as (n & m' & E & A).
      exists n, m'. split; [exact E|].
      pose proof (advances_trans _ _ _ _ _ _ _ A12
                    (advances_trans _ _ _ _ _ _ _ A4 A)) as T.
      cbn [entered] in T.
      eapply advances_eq; [exact T | lra | reflexivity].
    + destruct (IH lenMorse morseCounter m2) as (n & m' & E & A).
      exists n, m'. split; [exact E|].
      pose proof (advances_trans _ _ _ _ _ _ _ A12 A) as T.
      eapply advances_eq; [exact T | lra | reflexivity].
Qed.

Lemma do_char_spec (char : ascii) (m : CWMachine) :
  exists n m',
    do_char char m = Ok (n, m') /\
    advances m m' (char_time char) (char_signals char).
Proof. apply symbol_loop_spec. Qed.

Lemma char_loop_spec (chars : list ascii) :
  forall lenWord wordCounter m,
  exists n m',
    char_loop chars lenWord wordCounter m = Ok (n, m') /\
    advances m m' (chars_time chars lenWord wordCounter)
             (flat_map char_signals chars).
Proof.
  induction chars as [|char rest IH]; intros lenWord wordCounter m.
  - exists wordCounter, m. split; [reflexivity | apply advances_refl].
  - cbn [char_loop chars_time flat_map].
    destruct (do_char_spec char m) as (k & m1 & E1 & A1).
    rewrite E1. cbn [bind snd].
    destruct (wordCounter <? lenWord).
    + destruct (off_then_fire doLP m1) as (m3 & E3 & _ & A3); [discriminate|].
      destruct (return_to_off m1) as [m2|]; [|discriminate].
      cbn [bind] in E3 |- *. rewrite E3. cbn [bind].
      destruct (IH lenWord (S wordCounter) m3) as (n & m' & E & A).
      exists n, m'. split; [exact E|].
      pose proof (advances_trans _ _ _ _ _ _ _ A1
                    (advances_trans _ _ _ _ _ _ _ A3 A)) as T.
      cbn [entered] in T.
      eapply advances_eq; [exact T | lra | reflexivity].
    + destruct (IH lenWord wordCounter m1) as (n & m' & E & A).
      exists n, m'. split; [exact E|].
      exact (advances_trans _ _ _ _ _ _ _ A1 A).
Qed.

Lemma word_loop_spec (wordList : list (list ascii)) :
  forall lenWords wordsCounter m,
  exists n m',
    word_loop wordList lenWords wordsCounter m = Ok (n, m') /\
    advances m m' (words_time wordList lenWords wordsCounter)
             (flat_map word_signals wordList).
Proof.
  induction wordList as [|word rest IH]; intros lenWords wordsCounter m.
  - exists wordsCounter, m. split; [reflexivity | apply advances_refl].
  - cbn [word_loop words_time flat_map].
    destruct (char_loop_spec (upper word) (List.length word) 1 m)
      as (k & m1 & E1 & A1).
    unfold do_word. rewrite E1. cbn [bind snd].
    destruct (wordsCounter <? lenWords).
    + destruct (off_then_fire doWP m1) as (m3 & E3 & _ & A3); [discriminate|].
      destruct (return_to_off m1) as [m2|]; [|discriminate].
      cbn [bind] in E3 |- *. rewrite E3. cbn [bind].
      destruct (IH lenWords (S wordsCounter) m3) as (n & m' & E & A).
      exists n, m'. split; [exact E|].
      pose proof (advances_trans _ _ _ _ _ _ _ A1
                    (advances_trans _ _ _ _ _ _ _ A3 A)) as T.
      cbn [entered] in T.
      eapply advances_eq; [exact T | unfold word_time; lra | reflexivity].
    + destruct (IH lenWords wordsCounter m1) as (n & m' & E & A).
      exists n, m'. split; [exact E|].
      exact (advances_trans _ _ _ _ _ _ _ A1 A).
Qed.

(** A pass over any message raises nothing, takes [pass_time] and sends
    [pass_signals]. *)
Lemma transmit_pass_spec (m : CWMachine) :
  exists m',
    transmit_pass m = Ok m' /\
    activeMessage m' = activeMessage m /\
    released m' = released m /\
    clock m' == clock m + pass_time (activeMessage m) /\
    signals (fired m') =
      signals (fired m) ++ pass_signals (activeMessage m).
Proof.
  unfold transmit_pass.
  set (m0 := updateScreen _ m).
  destruct (word_loop_spec (split (activeMessage m0))
              (List.length (split (activeMessage m0))) 1 m0)
    as (n & m' & E & (A & R & _ & C & S)).
  rewrite E. cbn [bind snd]. exists m'.
  repeat split; assumption.
Qed.

Lemma hold_nonneg (s : State) : 0 <= hold s.
Proof. destruct s; simpl; lra. Qed.

Lemma symbol_time_nonneg (morse : list ascii) :
  forall lenMorse morseCounter, 0 <= symbol_time morse lenMorse morseCounter.
Proof.
  induction morse as [|symbol rest IH]; intros; cbn [symbol_time]; [lra|].
  assert (0 <= symbol_hold symbol).
  { unfold symbol_hold. destruct (Ascii.eqb symbol ".");
      [|destruct (Ascii.eqb symbol "-")]; simpl; lra. }
  destruct (morseCounter <? lenMorse).
  - specialize (IH lenMorse (S morseCounter)). simpl hold. lra.
  - specialize (IH lenMorse morseCounter). lra.
Qed.

Lemma chars_time_nonneg (chars : list ascii) :
  forall lenWord wordCounter, 0 <= chars_time chars lenWord wordCounter.
Proof.
  induction chars as [|char rest IH]; intros; cbn [chars_time]; [lra|].
  pose proof (symbol_time_nonneg (morse_of char)
                (List.length (morse_of char)) 1) as Hc.
  fold (char_time char) in Hc.
  destruct (wordCounter <? lenWord).
  - specialize (IH lenWord (S wordCounter)). simpl hold. lra.
  - specialize (IH lenWord wordCounter). lra.
Qed.

Lemma words_time_nonneg (wordList : list (list ascii)) :
  forall lenWords wordsCounter, 0 <= words_time wordList lenWords wordsCounter.
Proof.
  induction wordList as [|word rest IH]; intros; cbn [words_time]; [lra|].
  pose proof (chars_time_nonneg (upper word) (List.length word) 1) as Hw.
  fold (word_time word) in Hw.
  destruct (wordsCounter <? lenWords).
  - specialize (IH lenWords (S wordsCounter)). simpl hold. lra.
  - specialize (IH lenWords wordsCounter). lra.
Qed.

Lemma pass_time_nonneg (msg : string) : 0 <= pass_time msg.
Proof. apply words_time_nonneg. Qed.

(** ** The [while] loop *)

Lemma Q_of_nat_S (n : nat) : Q_of_nat (S n) == Q_of_nat n + 1.
Proof.
  unfold Q_of_nat. rewrite Nat2Z.inj_succ. unfold Z.succ.
  now rewrite inject_Z_plus.
Qed.

Lemma Q_of_nat_nonneg (n : nat) : 0 <= Q_of_nat n.
Proof.
  unfold Q_of_nat. change 0 with (inject_Z 0). rewrite <- Zle_Qle. lia.
Qed.

Lemma endTransmission_true (t0 now : Q) :
  t0 <= now -> endTransmission t0 now = true.
Proof. intros H. now apply Qle_bool_iff. Qed.

Lemma endTransmission_false (t0 now : Q) :
  now < t0 -> endTransmission t0 now = false.
Proof.
  intros H. unfold endTransmission.
  destruct (Qle_bool t0 now) eqn:E; [|reflexivity].
  apply Qle_bool_iff in E. lra.
Qed.

(** A flag set during pass number [n + 1] is seen when that pass is
    over, and not before. *)
Lemma transmit_exit (n : nat) :
  forall (t0 : Q) (m : CWMachine),
  clock m + Q_of_nat n * pass_time (activeMessage m) < t0 ->
  t0 <= clock m + Q_of_nat (S n) * pass_time (activeMessage m) ->
  exists m',
    transmit (S (S n)) t0 m = Some (Ok m') /\
    clock m' == clock m + Q_of_nat (S n) * pass_time (activeMessage m) /\
    signals (fired m') =
      signals (fired m) ++
      concat (repeat (pass_signals (activeMessage m)) (S n)) /\
    released m' = S (released m) /\
    lcd m' = None.
Proof.
  induction n as [|n IH]; intros t0 m Hlt Hle.
  - destruct (transmit_pass_spec m) as (m1 & E1 & A1 & R1 & C1 & G1).
    assert (Hq1 : Q_of_nat 1 == 1) by reflexivity.
    assert (Hq0 : Q_of_nat 0 == 0) by reflexivity.
    rewrite Hq0 in Hlt. rewrite Hq1 in Hle.
    cbn [transmit]. rewrite endTransmission_false by lra.
    rewrite E1. rewrite endTransmission_true by (rewrite C1; lra).
    eexists. split; [reflexivity|]. cbn [clock fired released lcd cleanupDisplay].
    repeat split.
    + rewrite C1, Hq1. lra.
    + rewrite G1. cbn [repeat concat]. now rewrite app_nil_r.
    + now rewrite R1.
  - destruct (transmit_pass_spec m) as (m1 & E1 & A1 & R1 & C1 & G1).
    pose proof (pass_time_nonneg (activeMessage m)) as HD.
    pose proof (Q_of_nat_nonneg n) as Hn.
    pose proof (Q_of_nat_S n) as HS.
    pose proof (Q_of_nat_S (S n)) as HSS.
    assert (Hprod : 0 <= Q_of_nat n * pass_time (activeMessage m))
      by (apply Qmult_le_0_compat; assumption).
    rewrite HS in Hlt. rewrite HSS, HS in Hle.
    destruct (IH t0 m1) as (m' & E & C & G & R & L).
    + rewrite A1, C1. lra.
    + rewrite A1, C1, HS. lra.
    + exists m'. split.
      * change (transmit (S (S (S n))) t0 m)
          with (if endTransmission t0 (clock m)
                then Some (Ok (cleanupDisplay m))
                else match transmit_pass m with
                     | Ok m2 => transmit (S (S n)) t0 m2
                     | Raise e => Some (Raise e)
                     end).
        rewrite endTransmission_false by lra.
        rewrite E1. exact E.
      * repeat split.
        -- rewrite C, A1, C1, HSS, !HS. lra.
        -- rewrite G, G1, A1. cbn [repeat concat].
           now rewrite <- app_assoc.
        -- now rewrite R, R1.
        -- exact L.
Qed.

Lemma dict_get_absent {V} (d : list (ascii * V)) (k : ascii) (default : V) :
  dict_mem d k = false -> dict_get d k default = default.
Proof.
  induction d as [|[k' v] rest IH]; simpl; [reflexivity|].
  destruct (Ascii.eqb k' k); simpl; [discriminate | exact IH].
Qed.

(** ** The claims about the beacon *)

(** C1, as the code has it: from [off] the dot event enters [dot]; the
    idle return from [dot] gives [off]; and the dot event fired again in
    [dot] is the declared transition [dot.to(off)] of [doDot], so it
    returns to [off] and raises nothing. *)
Theorem C1_dot_event_returns_to_off (m : CWMachine) :
  current_state m = off ->
  exists m1 m2 m3,
    fire doDot m = Ok m1 /\ current_state m1 = dot /\
    fire goOff m1 = Ok m2 /\ current_state m2 = off /\
    fire doDot m1 = Ok m3 /\ current_state m3 = off.
Proof.
  intros Hs. unfold fire at 1. rewrite Hs. cbn [transitions target State_eqb].
  eexists. eexists. eexists.
  split; [reflexivity|]. split; [reflexivity|].
  split; [reflexivity|]. split; [reflexivity|].
  split; reflexivity.
Qed.

Lemma C1_dot_event_returns_to_off_witness :
  current_state (init message1) = off /\
  exists m1 m2 m3,
    fire doDot (init message1) = Ok m1 /\ current_state m1 = dot /\
    fire goOff m1 = Ok m2 /\ current_state m2 = off /\
    fire doDot m1 = Ok m3 /\ current_state m3 = off.
Proof.
  split; [reflexivity|].
  apply (C1_dot_event_returns_to_off (init message1)). reflexivity.
Defined.

(** C1, as the claim states it, fails: in state [dot], reached from
    [off] by the dot event, firing the dot event again raises no
    [TransitionNotAllowed]; it performs a transition. *)
Lemma C1_second_dot_is_not_an_error :
  exists m1,
    fire doDot (init message1) = Ok m1 /\ current_state m1 = dot /\
    fire doDot m1 <> Raise (TransitionNotAllowed doDot dot) /\
    exists m3, fire doDot m1 = Ok m3 /\ current_state m3 <> dot.
Proof.
  eexists. split; [reflexivity|]. split; [reflexivity|].
  split; [discriminate|].
  eexists. split; [reflexivity|]. discriminate.
Qed.

(** C7: entering [dot] holds for 0.5, [dash] for 1.5, [dotDashPause] for
    0.25, [letterPause] for 0.75 and [wordPause] for 3 time units, and
    the dash hold is exactly three dot holds.  Entering [off] and leaving
    any state take no time. *)
Theorem C7_hold_durations (m : CWMachine) :
  clock (on_enter dot m) - clock m == 1#2 /\
  clock (on_enter dash m) - clock m == 3#2 /\
  clock (on_enter dotDashPause m) - clock m == 1#4 /\
  clock (on_enter letterPause m) - clock m == 3#4 /\
  clock (on_enter wordPause m) - clock m == 3 /\
  clock (on_enter dash m) - clock m ==
    3 * (clock (on_enter dot m) - clock m) /\
  clock (on_enter off m) = clock m /\
  (forall s, clock (on_exit s m) = clock m).
Proof.
  repeat split; try (cbn [on_enter sleep set_redLight set_blueLight clock]; lra).
  intros s. destruct s; reflexivity.
Qed.

(** C8: the idle return is legal in each of the five states other than
    [off] and always leads to [off]; it raises nothing there. *)
Theorem C8_goOff_legal_from_non_idle (m : CWMachine) :
  current_state m <> off ->
  (exists m', fire goOff m = Ok m' /\ current_state m' = off) /\
  (forall err, fire goOff m <> Raise err).
Proof.
  intros Hs. destruct (goOff_from_busy m Hs) as (m' & E & S' & _).
  split.
  - exists m'. split; assumption.
  - intros err. rewrite E. discriminate.
Qed.

Lemma C8_goOff_legal_from_non_idle_witness :
  current_state (set_state wordPause (init message1)) <> off /\
  (exists m', fire goOff (set_state wordPause (init message1)) = Ok m' /\
              current_state m' = off) /\
  (forall err, fire goOff (set_state wordPause (init message1)) <> Raise err).
Proof.
  split; [discriminate|].
  apply (C8_goOff_legal_from_non_idle (set_state wordPause (init message1))).
  discriminate.
Defined.

(** C10: when the active message is one of the two configured ones,
    [toggleMessage] makes the other one active; the active message stays
    one of the two, and two presses of the button restore the machine. *)
Theorem C10_toggleMessage_involution (m : CWMachine) :
  activeMessage m = message1 \/ activeMessage m = message2 ->
  (activeMessage m = message1 ->
   activeMessage (toggleMessage m) = message2) /\
  (activeMessage m = message2 ->
   activeMessage (toggleMessage m) = message1) /\
  (activeMessage (toggleMessage m) = message1 \/
   activeMessage (toggleMessage m) = message2) /\
  toggleMessage (toggleMessage m) = m /\
  processButton (processButton m) = m.
Proof.
  intros H. destruct m as [s r b a l rel c f]. cbn [activeMessage] in H.
  unfold processButton, toggleMessage, set_activeMessage. cbn.
  destruct H as [H|H]; subst a; cbn; repeat split;
    try reflexivity; try discriminate; auto.
Qed.

Lemma C10_toggleMessage_involution_witness :
  (activeMessage (init message1) = message1 \/
   activeMessage (init message1) = message2) /\
  activeMessage (toggleMessage (init message1)) = message2 /\
  toggleMessage (toggleMessage (init message1)) = init message1.
Proof.
  split; [left; reflexivity|].
  destruct (C10_toggleMessage_involution (init message1))
    as (H1 & _ & _ & H4 & _); [left; reflexivity|].
  split; [apply H1; reflexivity | exact H4].
Defined.

(** C2, as the code has it: [endTransmission] is read once per pass, at
    the top of the [while] loop, and nowhere inside the pass.  A flag set
    during pass number [n + 1] ends the loop when that pass is over: all
    its dots and dashes are still sent, the display is released once, and
    the time from setting the flag to leaving the loop is below the
    duration of one pass over the message (10.5 time units for SOS, 9.75
    for OK). *)
Theorem C2_flag_read_once_per_pass (msg : string) (t0 : Q) (n : nat) :
  Q_of_nat n * pass_time msg < t0 ->
  t0 <= Q_of_nat (S n) * pass_time msg ->
  (exists m',
     transmit (S (S n)) t0 (init msg) = Some (Ok m') /\
     clock m' == Q_of_nat (S n) * pass_time msg /\
     signals (fired m') = concat (repeat (pass_signals msg) (S n)) /\
     released m' = 1%nat /\ lcd m' = None /\
     0 <= clock m' - t0 /\ clock m' - t0 < pass_time msg) /\
  pass_time message1 == 21#2 /\
  pass_time message2 == 39#4.
Proof.
  intros Hlt Hle. split; [|split; reflexivity].
  destruct (transmit_exit n t0 (init msg)) as (m' & E & C & G & R & L).
  - cbn [clock init activeMessage]. lra.
  - cbn [clock init activeMessage]. lra.
  - cbn [clock init activeMessage fired released signals filter app] in *.
    exists m'. repeat split; try assumption.
    + rewrite C. lra.
    + rewrite C. lra.
    + rewrite C. pose proof (Q_of_nat_S n) as HS. rewrite HS in *. lra.
Qed.

Lemma C2_flag_read_once_per_pass_witness :
  Q_of_nat 0 * pass_time message1 < 1#4 /\
  (1#4) <= Q_of_nat 1 * pass_time message1 /\
  exists m',
    transmit 2 (1#4) (init message1) = Some (Ok m') /\
    clock m' == Q_of_nat 1 * pass_time message1 /\
    signals (fired m') = concat (repeat (pass_signals message1) 1) /\
    released m' = 1%nat /\ lcd m' = None /\
    0 <= clock m' - (1#4) /\ clock m' - (1#4) < pass_time message1.
Proof.
  assert (H1 : Q_of_nat 0 * pass_time message1 < 1#4) by reflexivity.
  assert (H2 : (1#4) <= Q_of_nat 1 * pass_time message1)
    by (vm_compute; discriminate).
  split; [exact H1|]. split; [exact H2|].
  exact (proj1 (C2_flag_read_once_per_pass message1 (1#4) 0 H1 H2)).
Defined.

(** C2, as the claim states it, fails: with the flag set 0.25 time units
    into the first dot of SOS, the loop does not leave after that hold.
    It fires the 32 remaining events of the pass and leaves at 10.5 time
    units, 10.25 after the flag was set, which is more than 3. *)
Lemma C2_flag_not_read_between_symbols :
  exists m',
    transmit 2 (1#4) (init message1) = Some (Ok m') /\
    fired m' =
      [doDot; goOff; doDDP; goOff; doDot; goOff; doDDP; goOff; doDot;
       goOff; doLP; goOff; doDash; goOff; doDDP; goOff; doDash; goOff;
       doDDP; goOff; doDash; goOff; doLP; goOff; doDot; goOff; doDDP;
       goOff; doDot; goOff; doDDP; goOff; doDot] /\
    clock m' == 21#2 /\
    ~ (clock m' - (1#4) <= 3).
Proof.
  eexists. split; [vm_compute; reflexivity|].
  split; [reflexivity|]. split; [vm_compute; reflexivity|].
  vm_compute. intros H. apply H. reflexivity.
Qed.

(** C9: a character of the upper-cased word that is not a key of
    [morseDict] gets the empty code.  Its symbol loop fires no event,
    raises nothing and leaves the machine as it was; it adds no dot or
    dash to the word and no time; the character loop goes on with the
    characters after it; and a pass over a message that contains it
    raises nothing. *)
Theorem C9_unknown_character_skipped (c : ascii) (m : CWMachine) :
  dict_mem morseDict (char_upper c) = false ->
  dict_get morseDict (char_upper c) ""%string = ""%string /\
  do_char (char_upper c) m = Ok (1%nat, m) /\
  char_signals (char_upper c) = [] /\
  char_time (char_upper c) == 0 /\
  (forall before after,
     word_signals (before ++ c :: after) = word_signals (before ++ after)) /\
  (forall rest lenWord wordCounter,
     char_loop (upper (c :: rest)) lenWord wordCounter m =
     if wordCounter <? lenWord
     then m2 <- return_to_off m ;;
          m3 <- fire doLP m2 ;;
          char_loop (upper rest) lenWord (S wordCounter) m3
     else char_loop (upper rest) lenWord wordCounter m) /\
  (forall msg,
     In c (list_ascii_of_string msg) ->
     exists m',
       transmit_pass (set_activeMessage msg m) = Ok m' /\
       signals (fired m') = signals (fired m) ++ pass_signals msg).
Proof.
  intros Habs.
  pose proof (dict_get_absent morseDict (char_upper c) ""%string Habs) as Hget.
  assert (Hdo : do_char (char_upper c) m = Ok (1%nat, m))
    by (unfold do_char; rewrite Hget; reflexivity).
  assert (Hsig : char_signals (char_upper c) = [])
    by (unfold char_signals, morse_of; rewrite Hget; reflexivity).
  split; [exact Hget|]. split; [exact Hdo|]. split; [exact Hsig|].
  split; [unfold char_time, morse_of; rewrite Hget; reflexivity|].
  split; [|split].
  - intros before after. unfold word_signals, upper.
    rewrite !map_app, !flat_map_app. cbn [map flat_map].
    now rewrite Hsig.
  - intros rest lenWord wordCounter. cbn [upper map char_loop].
    rewrite Hdo. reflexivity.
  - intros msg _.
    destruct (transmit_pass_spec (set_activeMessage msg m))
      as (m' & E & _ & _ & _ & G).
    exists m'. split; [exact E | exact G].
Qed.

Lemma C9_unknown_character_skipped_witness :
  dict_mem morseDict (char_upper "?") = false /\
  do_char (char_upper "?") (init "S?O") = Ok (1%nat, init "S?O") /\
  word_signals (list_ascii_of_string "S?O") =
    [doDot; doDot; doDot; doDash; doDash; doDash].
Proof.
  split; [reflexivity|].
  destruct (C9_unknown_character_skipped "?" (init "S?O") eq_refl)
    as (_ & Hdo & _ & _ & Hw & _).
  split; [exact Hdo|].
  exact (eq_trans (Hw ["S"%char] ["O"%char]) eq_refl).
Defined.

End BeaconFacts.

(** * More on the beacon: the transmission as a whole *)

Module BeaconExtra.
Import Beacon BeaconObs BeaconFacts.

(** ** The two steps [transmit] is made of *)

Lemma fire_from_off_eq (e : Event) (m : CWMachine) :
  current_state m = off -> e <> goOff ->
  fire e m = Ok (on_enter (entered e) (set_state (entered e) (log e m))).
Proof.
  intros Hs He. unfold fire. rewrite Hs.
  destruct e; try congruence; reflexivity.
Qed.

Lemma goOff_from_busy_eq (m : CWMachine) :
  current_state m <> off ->
  fire goOff m =
  Ok (set_state off (on_exit (current_state m) (log goOff m))).
Proof.
  intros Hs. unfold fire.
  destruct (current_state m); try congruence; reflexivity.
Qed.

Lemma on_enter_fired (s : State) (m : CWMachine) :
  fired (on_enter s m) = fired m.
Proof. destruct s; reflexivity. Qed.

Lemma on_exit_fired (s : State) (m : CWMachine) :
  fired (on_exit s m) = fired m.
Proof. destruct s; reflexivity. Qed.

Lemma on_enter_state (s : State) (m : CWMachine) :
  current_state (on_enter s m) = current_state m.
Proof. destruct s; reflexivity. Qed.

Lemma actions_app (l1 l2 : list Event) :
  actions (l1 ++ l2) = actions l1 ++ actions l2.
Proof. apply filter_app. Qed.

(** [m'] has fired the events [evs] more than [m], idle returns apart. *)
Definition emits (m m' : CWMachine) (evs : list Event) : Prop :=
  actions (fired m') = actions (fired m) ++ evs.

Lemma emits_refl (m : CWMachine) : emits m m [].
Proof. unfold emits. now rewrite app_nil_r. Qed.

Lemma emits_trans (m1 m2 m3 : CWMachine) (e1 e2 : list Event) :
  emits m1 m2 e1 -> emits m2 m3 e2 -> emits m1 m3 (e1 ++ e2).
Proof. unfold emits. intros H1 H2. now rewrite H2, H1, app_assoc. Qed.

Lemma return_to_off_emits (m : CWMachine) :
  exists m', return_to_off m = Ok m' /\ current_state m' = off /\
             emits m m' [].
Proof.
  unfold return_to_off. destruct (State_eqb (current_state m) off) eqn:E.
  - apply State_eqb_eq in E. exists m.
    split; [reflexivity|]. split; [exact E | apply emits_refl].
  - assert (Hs : current_state m <> off)
      by (intro H; apply State_eqb_eq in H; congruence).
    rewrite (goOff_from_busy_eq m Hs). eexists.
    split; [reflexivity|]. split; [reflexivity|].
    unfold emits. cbn [fired set_state]. rewrite on_exit_fired.
    cbn [fired log]. rewrite actions_app. reflexivity.
Qed.

Lemma fire_from_off_emits (e : Event) (m : CWMachine) :
  current_state m = off -> e <> goOff ->
  exists m', fire e m = Ok m' /\ emits m m' [e].
Proof.
  intros Hs He. rewrite (fire_from_off_eq e m Hs He). eexists.
  split; [reflexivity|].
  unfold emits. rewrite on_enter_fired. cbn [fired set_state log].
  rewrite actions_app. f_equal. destruct e; try congruence; reflexivity.
Qed.

Lemma gap_step_emits (gap : Event) (m : CWMachine) :
  gap <> goOff ->
  exists m', (m2 <- return_to_off m ;; fire gap m2) = Ok m' /\
             emits m m' [gap].
Proof.
  intros Hg. destruct (return_to_off_emits m) as (m2 & E2 & S2 & A2).
  rewrite E2. cbn [bind].
  destruct (fire_from_off_emits gap m2 S2 Hg) as (m3 & E3 & A3).
  exists m3. split; [exact E3|]. exact (emits_trans _ _ _ _ _ A2 A3).
Qed.

(** ** The three loops are one loop *)

Lemma symbol_loop_gap_loop (morse : list ascii) :
  forall lenMorse morseCounter m,
  symbol_loop morse lenMorse morseCounter m =
  gap_loop symbol_body doDDP morse lenMorse morseCounter m.
Proof.
  induction morse as [|symbol rest IH]; intros; [reflexivity|].
  cbn [symbol_loop gap_loop]. unfold symbol_body.
  destruct (return_to_off m) as [m1|]; [|reflexivity]. cbn [bind].
  destruct (if Ascii.eqb symbol "." then fire doDot m1
            else if Ascii.eqb symbol "-" then fire doDash m1
            else Ok m1) as [m2|]; [|reflexivity].
  cbn [bind]. destruct (morseCounter <? lenMorse); [|apply IH].
  destruct (return_to_off m2) as [m3|]; [|reflexivity]. cbn [bind].
  destruct (fire doDDP m3) as [m4|]; [|reflexivity]. cbn [bind]. apply IH.
Qed.

Lemma char_loop_gap_loop (chars : list ascii) :
  forall lenWord wordCounter m,
  char_loop chars lenWord wordCounter m =
  gap_loop char_body doLP chars lenWord wordCounter m.
Proof.
  induction chars as [|char rest IH]; intros; [reflexivity|].
  cbn [char_loop gap_loop]. unfold char_body.
  destruct (do_char char m) as [r|]; [|reflexivity]. cbn [bind].
  destruct (wordCounter <? lenWord); [|apply IH].
  destruct (return_to_off (snd r)) as [m2|]; [|reflexivity]. cbn [bind].
  destruct (fire doLP m2) as [m3|]; [|reflexivity]. cbn [bind]. apply IH.
Qed.

Lemma word_loop_gap_loop (wordList : list (list ascii)) :
  forall lenWords wordsCounter m,
  word_loop wordList lenWords wordsCounter m =
  gap_loop word_body doWP wordList lenWords wordsCounter m.
Proof.
  induction wordList as [|word rest IH]; intros; [reflexivity|].
  cbn [word_loop gap_loop]. unfold word_body.
  destruct (do_word word m) as [r|]; [|reflexivity]. cbn [bind].
  destruct (wordsCounter <? lenWords); [|apply IH].
  destruct (return_to_off (snd r)) as [m2|]; [|reflexivity]. cbn [bind].
  destruct (fire doWP m2) as [m3|]; [|reflexivity]. cbn [bind]. apply IH.
Qed.

(** ** What the loop sends: a gap between two items and nowhere else *)

Section GapLoopEmits.

Context {Item : Type}.
Variable body : Item -> CWMachine -> Result Error CWMachine.
Variable gap : Event.
Variable sent : Item -> list Event.
Hypothesis gap_not_idle : gap <> goOff.
Hypothesis body_emits :
  forall x m, exists m', body x m = Ok m' /\ emits m m' (sent x).

(** The counter starts at 1 and the length is that of the whole list, so
    counter plus remaining items is the length plus one. *)
Lemma gap_loop_emits (items : list Item) :
  forall len counter m,
  (counter + List.length items = S len)%nat ->
  exists n m',
    gap_loop body gap items len counter m = Ok (n, m') /\
    emits m m' (between gap (map sent items)).
Proof.
  induction items as [|x rest IH]; intros len counter m Hc.
  - exists counter, m. split; [reflexivity | apply emits_refl].
  - cbn [gap_loop]. destruct (body_emits x m) as (m1 & E1 & A1).
    rewrite E1. cbn [bind]. cbn [List.length] in Hc.
    destruct (Nat.ltb_spec counter len) as [Hlt|Hge].
    + destruct (gap_step_emits gap m1 gap_not_idle) as (m3 & E3 & A3).
      destruct (return_to_off m1) as [m2|]; [|discriminate].
      cbn [bind] in E3 |- *. rewrite E3. cbn [bind].
      destruct (IH len (S counter) m3) as (n & m' & E & A); [lia|].
      exists n, m'. split; [exact E|].
      destruct rest as [|y rest']; [cbn [List.length] in Hc; lia|].
      cbn [map between]. cbn [map] in A.
      pose proof (emits_trans _ _ _ _ _ A1 (emits_trans _ _ _ _ _ A3 A)) as T.
      exact T.
    + destruct rest as [|y rest']; [|cbn [List.length] in Hc; lia].
      exists counter, m1. split; [reflexivity|]. exact A1.
Qed.

End GapLoopEmits.

Lemma symbol_body_emits (symbol : ascii) (m : CWMachine) :
  exists m', symbol_body symbol m = Ok m' /\ emits m m' (symbol_signal symbol).
Proof.
  unfold symbol_body, symbol_signal.
  destruct (return_to_off_emits m) as (m1 & E1 & S1 & A1).
  rewrite E1. cbn [bind].
  destruct (Ascii.eqb symbol ".").
  - destruct (fire_from_off_emits doDot m1 S1) as (m2 & E2 & A2);
      [discriminate|].
    exists m2. split; [exact E2|]. exact (emits_trans _ _ _ _ _ A1 A2).
  - destruct (Ascii.eqb symbol "-").
    + destruct (fire_from_off_emits doDash m1 S1) as (m2 & E2 & A2);
        [discriminate|].
      exists m2. split; [exact E2|]. exact (emits_trans _ _ _ _ _ A1 A2).
    + exists m1. split; [reflexivity | exact A1].
Qed.

Lemma char_body_emits (char : ascii) (m : CWMachine) :
  exists m', char_body char m = Ok m' /\ emits m m' (encode_char char).
Proof.
  unfold char_body, do_char. rewrite symbol_loop_gap_loop.
  destruct (gap_loop_emits symbol_body doDDP symbol_signal
              ltac:(discriminate) symbol_body_emits
              (list_ascii_of_string (dict_get morseDict char ""%string))
              (List.length
                 (list_ascii_of_string (dict_get morseDict char ""%string)))
              1%nat m) as (n & m' & E & A); [reflexivity|].
  rewrite E. cbn [bind snd]. exists m'. split; [reflexivity | exact A].
Qed.

Lemma word_body_emits (word : list ascii) (m : CWMachine) :
  exists m', word_body word m = Ok m' /\ emits m m' (encode_word word).
Proof.
  unfold word_body, do_word. rewrite char_loop_gap_loop.
  destruct (gap_loop_emits char_body doLP encode_char
              ltac:(discriminate) char_body_emits
              (upper word) (List.length word) 1%nat m)
    as (n & m' & E & A).
  - unfold upper. rewrite length_map. reflexivity.
  - rewrite E. cbn [bind snd]. exists m'. split; [reflexivity | exact A].
Qed.

Lemma transmit_pass_emits (m : CWMachine) :
  exists m',
    transmit_pass m = Ok m' /\ emits m m' (encode (activeMessage m)).
Proof.
  unfold transmit_pass. cbn [activeMessage updateScreen].
  rewrite word_loop_gap_loop.
  set (m0 := updateScreen _ m).
  destruct (gap_loop_emits word_body doWP encode_word
              ltac:(discriminate) word_body_emits
              (split (activeMessage m))
              (List.length (split (activeMessage m))) 1%nat m0)
    as (n & m' & E & A); [reflexivity|].
  rewrite E. cbn [bind snd]. exists m'. split; [reflexivity | exact A].
Qed.

Lemma transmit_pass_lcd (m m' : CWMachine) :
  transmit_pass m = Ok m' ->
  lcd m' = Some ("Sending:" ++ nl ++ activeMessage m)%string.
Proof.
  unfold transmit_pass. set (m0 := updateScreen _ m).
  destruct (word_loop_spec (split (activeMessage m0))
              (List.length (split (activeMessage m0))) 1%nat m0)
    as (n2 & m2 & E2 & (_ & _ & L2 & _)).
  rewrite E2. cbn [bind snd]. intros H. injection H as <-. exact L2.
Qed.


(** ** What every step keeps, the whole transmission keeps *)

Section Invariant.

Variable P : CWMachine -> Prop.
Hypothesis P_idle :
  forall m m', P m -> return_to_off m = Ok m' -> P m'.
Hypothesis P_fire :
  forall e m m', e <> goOff -> current_state m = off ->
                 P m -> fire e m = Ok m' -> P m'.
Hypothesis P_screen : forall text m, P m -> P (updateScreen text m).
Hypothesis P_cleanup : forall m, P m -> P (cleanupDisplay m).

Lemma return_to_off_state (m m' : CWMachine) :
  return_to_off m = Ok m' -> current_state m' = off.
Proof.
  intros H. destruct (return_to_off_spec m) as (m1 & E1 & S1 & _).
  rewrite H in E1. injection E1 as ->. exact S1.
Qed.

Lemma gap_loop_keeps {Item : Type}
    (body : Item -> CWMachine -> Result Error CWMachine) (gap : Event) :
  gap <> goOff ->
  (forall x m m', P m -> body x m = Ok m' -> P m') ->
  forall items len counter m n m',
  P m -> gap_loop body gap items len counter m = Ok (n, m') -> P m'.
Proof.
  intros Hg Hbody. induction items as [|x rest IH];
    intros len counter m n m' Hm H; cbn [gap_loop] in H.
  - injection H as _ <-. exact Hm.
  - destruct (body x m) as [m1|] eqn:E1; [|discriminate]. cbn [bind] in H.
    pose proof (Hbody x m m1 Hm E1) as H1.
    destruct (counter <? len); [|exact (IH _ _ _ _ _ H1 H)].
    destruct (return_to_off m1) as [m2|] eqn:E2; [|discriminate].
    cbn [bind] in H.
    destruct (fire gap m2) as [m3|] eqn:E3; [|discriminate].
    cbn [bind] in H.
    apply (IH _ _ _ _ _ (P_fire gap m2 m3 Hg (return_to_off_state _ _ E2)
                           (P_idle _ _ H1 E2) E3) H).
Qed.

Lemma symbol_body_keeps (symbol : ascii) (m m' : CWMachine) :
  P m -> symbol_body symbol m = Ok m' -> P m'.
Proof.
  unfold symbol_body. intros Hm H.
  destruct (return_to_off m) as [m1|] eqn:E1; [|discriminate].
  cbn [bind] in H.
  pose proof (P_idle _ _ Hm E1) as H1.
  pose proof (return_to_off_state _ _ E1) as S1.
  destruct (Ascii.eqb symbol ".").
  - apply (P_fire doDot m1 m'); [discriminate | assumption..].
  - destruct (Ascii.eqb symbol "-").
    + apply (P_fire doDash m1 m'); [discriminate | assumption..].
    + injection H as <-. exact H1.
Qed.

Lemma char_body_keeps (char : ascii) (m m' : CWMachine) :
  P m -> char_body char m = Ok m' -> P m'.
Proof.
  unfold char_body, do_char. rewrite symbol_loop_gap_loop. intros Hm H.
  destruct (gap_loop symbol_body doDDP _ _ 1 m) as [[n m1]|] eqn:E;
    [|discriminate].
  cbn [bind snd] in H. injection H as <-.
  apply (gap_loop_keeps symbol_body doDDP ltac:(discriminate)
           symbol_body_keeps _ _ _ _ _ _ Hm E).
Qed.

Lemma word_body_keeps (word : list ascii) (m m' : CWMachine) :
  P m -> word_body word m = Ok m' -> P m'.
Proof.
  unfold word_body, do_word. rewrite char_loop_gap_loop. intros Hm H.
  destruct (gap_loop char_body doLP _ _ 1 m) as [[n m1]|] eqn:E;
    [|discriminate].
  cbn [bind snd] in H. injection H as <-.
  apply (gap_loop_keeps char_body doLP ltac:(discriminate)
           char_body_keeps _ _ _ _ _ _ Hm E).
Qed.

Lemma transmit_pass_keeps (m m' : CWMachine) :
  P m -> transmit_pass m = Ok m' -> P m'.
Proof.
  unfold transmit_pass. rewrite word_loop_gap_loop. intros Hm H.
  destruct (gap_loop word_body doWP _ _ 1 _) as [[n m1]|] eqn:E;
    [|discriminate].
  cbn [bind snd] in H. injection H as <-.
  apply (gap_loop_keeps word_body doWP ltac:(discriminate)
           word_body_keeps _ _ _ _ _ _ (P_screen _ m Hm) E).
Qed.

(** Whatever the loop returns, it is no exception, and the machine it
    leaves satisfies [P]. *)
Lemma transmit_keeps (fuel : nat) :
  forall t0 m r,
  P m -> transmit fuel t0 m = Some r -> exists m', r = Ok m' /\ P m'.
Proof.
  induction fuel as [|fuel IH]; intros t0 m r Hm H; [discriminate|].
  cbn [transmit] in H. destruct (endTransmission t0 (clock m)).
  - injection H as <-. eexists. split; [reflexivity|]. now apply P_cleanup.
  - destruct (transmit_pass_spec m) as (m1 & E1 & _).
    rewrite E1 in H.
    apply (IH t0 m1 r (transmit_pass_keeps m m1 Hm E1) H).
Qed.

End Invariant.

(** ** The log alternates *)

Lemma alternates_snoc (es : list Event) :
  forall expect_off e,
  alternates expect_off (es ++ [e]) =
  alternates expect_off es &&
  Bool.eqb (is_goOff e) (xorb expect_off (Nat.odd (List.length es))).
Proof.
  induction es as [|a es IH]; intros b e; cbn [app alternates List.length].
  - destruct (is_goOff e), b; reflexivity.
  - rewrite IH, Nat.odd_succ, <- Nat.negb_odd.
    destruct (Bool.eqb (is_goOff a) b), (alternates (negb b) es),
      (is_goOff e), b, (Nat.odd (List.length es)); reflexivity.
Qed.

Lemma in_step_idle (m m' : CWMachine) :
  in_step m -> return_to_off m = Ok m' -> in_step m'.
Proof.
  intros [Ha Hs] H. unfold return_to_off in H.
  destruct (State_eqb (current_state m) off) eqn:E.
  - injection H as <-. split; [exact Ha | rewrite E; exact Hs].
  - assert (Hb : current_state m <> off)
      by (intro X; apply State_eqb_eq in X; congruence).
    rewrite (goOff_from_busy_eq m Hb) in H. injection H as <-.
    unfold in_step. cbn [fired set_state current_state].
    rewrite on_exit_fired. cbn [fired log].
    rewrite alternates_snoc, length_app, Ha. cbn [List.length].
    rewrite Nat.add_1_r, Nat.even_succ, <- Nat.negb_even, <- Hs.
    split; reflexivity.
Qed.

Lemma in_step_fire (e : Event) (m m' : CWMachine) :
  e <> goOff -> current_state m = off ->
  in_step m -> fire e m = Ok m' -> in_step m'.
Proof.
  intros He Hoff [Ha Hs] H.
  rewrite (fire_from_off_eq e m Hoff He) in H. injection H as <-.
  unfold in_step. rewrite on_enter_fired, on_enter_state.
  cbn [fired set_state current_state log].
  rewrite alternates_snoc, length_app, Ha. cbn [List.length].
  rewrite Nat.add_1_r, Nat.even_succ, <- Nat.negb_even, <- Hs, Hoff.
  destruct e; try congruence; split; reflexivity.
Qed.

(** X2: in a transmission started on the initial machine, whatever the
    message and whenever the flag is set, the events fired take turns: a
    signal or gap event, an idle return, a signal or gap event, and so
    on.  No signal or gap state is entered from another one, and the
    idle return is never fired in [off]. *)
Theorem X2_events_take_turns (msg : string) (fuel : nat) (t0 : Q)
    (r : Result Error CWMachine) :
  transmit fuel t0 (init msg) = Some r ->
  exists m',
    r = Ok m' /\
    alternates false (fired m') = true /\
    State_eqb (current_state m') off = Nat.even (List.length (fired m')).
Proof.
  intros H.
  destruct (transmit_keeps in_step in_step_idle in_step_fire
              (fun _ _ X => X) (fun _ X => X) fuel t0 (init msg) r) as (m' & E & I).
  - split; reflexivity.
  - exact H.
  - exists m'. split; [exact E | exact I].
Qed.

Lemma X2_events_take_turns_witness :
  exists r,
    transmit 2 (1#4) (init message1) = Some r /\
    exists m',
      r = Ok m' /\
      alternates false (fired m') = true /\
      State_eqb (current_state m') off = Nat.even (List.length (fired m')).
Proof.
  destruct (transmit 2 (1#4) (init message1)) as [r|] eqn:E;
    [|vm_compute in E; discriminate E].
  exists r. split; [reflexivity|].
  exact (X2_events_take_turns message1 2 (1#4) r E).
Defined.

(** ** The LEDs follow the state *)

Lemma leds_follow_fire (e : Event) (m m' : CWMachine) :
  leds_follow m -> fire e m = Ok m' -> leds_follow m'.
Proof.
  destruct m as [s r b a l rel c f]. unfold leds_follow, fire.
  cbn [redLight blueLight current_state]. intros [Hr Hb] H. subst r b.
  destruct s, e; cbn in H; try discriminate H;
    injection H as <-; split; reflexivity.
Qed.

Lemma leds_follow_idle (m m' : CWMachine) :
  leds_follow m -> return_to_off m = Ok m' -> leds_follow m'.
Proof.
  intros Hm H. unfold return_to_off in H.
  destruct (State_eqb (current_state m) off).
  - injection H as <-. exact Hm.
  - exact (leds_follow_fire goOff m m' Hm H).
Qed.

(** X3: when the red LED is lit exactly in [dot] and the blue one exactly
    in [dash], as on the initial machine, every legal event keeps it so,
    and so does the whole transmission.  The two LEDs are then never lit
    together and none is lit in [off] or during a pause. *)
Theorem X3_leds_follow_state (m : CWMachine) :
  leds_follow m ->
  (forall e m', fire e m = Ok m' -> leds_follow m') /\
  (forall fuel t0 r,
     transmit fuel t0 m = Some r -> exists m', r = Ok m' /\ leds_follow m') /\
  redLight m && blueLight m = false /\
  (current_state m <> dot -> current_state m <> dash ->
   redLight m = false /\ blueLight m = false).
Proof.
  intros Hm. split; [|split; [|split]].
  - intros e m'. apply leds_follow_fire. exact Hm.
  - intros fuel t0 r H.
    apply (transmit_keeps leds_follow leds_follow_idle
             (fun e m1 m2 _ _ => leds_follow_fire e m1 m2)
             (fun _ _ X => X) (fun _ X => X) fuel t0 m r Hm H).
  - destruct Hm as [-> ->]. destruct (current_state m); reflexivity.
  - destruct Hm as [-> ->]. intros H1 H2.
    destruct (current_state m); try congruence; split; reflexivity.
Qed.

Lemma X3_leds_follow_state_witness :
  leds_follow (init message1) /\
  (forall e m', fire e (init message1) = Ok m' -> leds_follow m') /\
  redLight (init message1) && blueLight (init message1) = false.
Proof.
  assert (H : leds_follow (init message1)) by (split; reflexivity).
  split; [exact H|].
  destruct (X3_leds_follow_state (init message1) H) as (H1 & _ & H3 & _).
  split; [exact H1 | exact H3].
Defined.

(** ** Time is spent in the holds of the encoding and nowhere else *)







(** ** The loop ends, and ends well *)

Lemma transmit_ends_within (n : nat) :
  forall t0 m,
  t0 <= clock m + Q_of_nat n * pass_time (activeMessage m) ->
  exists m', transmit (S n) t0 m = Some (Ok m').
Proof.
  induction n as [|n IH]; intros t0 m H.
  - assert (Hq0 : Q_of_nat 0 == 0) by reflexivity. rewrite Hq0 in H.
    cbn [transmit]. rewrite endTransmission_true by lra.
    eexists. reflexivity.
  - change (transmit (S (S n)) t0 m)
      with (if endTransmission t0 (clock m)
            then Some (Ok (cleanupDisplay m))
            else match transmit_pass m with
                 | Ok m2 => transmit (S n) t0 m2
                 | Raise e => Some (Raise e)
                 end).
    destruct (endTransmission t0 (clock m)); [eexists; reflexivity|].
    destruct (transmit_pass_spec m) as (m1 & E1 & A1 & _ & C1 & _).
    rewrite E1. apply IH. rewrite A1, C1.
    pose proof (Q_of_nat_S n) as HS. rewrite HS in H. lra.
Qed.

Lemma transmit_exit_facts (fuel : nat) :
  forall t0 m m',
  transmit fuel t0 m = Some (Ok m') ->
  t0 <= clock m' /\ released m' = S (released m) /\ lcd m' = None /\
  activeMessage m' = activeMessage m.
Proof.
  induction fuel as [|fuel IH]; intros t0 m m' H; [discriminate|].
  cbn [transmit] in H. destruct (endTransmission t0 (clock m)) eqn:F.
  - injection H as <-. cbn [clock released lcd activeMessage cleanupDisplay].
    apply Qle_bool_iff in F. repeat split; [exact F|..]; reflexivity.
  - destruct (transmit_pass_spec m) as (m1 & E1 & A1 & R1 & _ & _).
    rewrite E1 in H. destruct (IH t0 m1 m' H) as (H1 & H2 & H3 & H4).
    repeat split; [exact H1|congruence|exact H3|congruence].
Qed.

(** X5: when a pass over the active message takes time, the loop ends
    for every time [t0] at which the flag is set: with enough fuel
    [transmit] returns, having seen the flag, released the display
    exactly once and cleared it, and left the message alone.  With any
    fuel it raises nothing. *)
Theorem X5_transmit_ends_and_never_raises (m : CWMachine) (t0 : Q) :
  0 < pass_time (activeMessage m) ->
  (exists fuel m',
     transmit fuel t0 m = Some (Ok m') /\
     t0 <= clock m' /\ released m' = S (released m) /\ lcd m' = None /\
     activeMessage m' = activeMessage m) /\
  (forall fuel e, transmit fuel t0 m <> Some (Raise e)).
Proof.
  intros HD. split.
  - destruct (Qarchimedean ((t0 - clock m) / pass_time (activeMessage m)))
      as [p Hp].
    assert (Hn : Q_of_nat (Pos.to_nat p) == Z.pos p # 1).
    { unfold Q_of_nat. now rewrite positive_nat_Z. }
    destruct (transmit_ends_within (Pos.to_nat p) t0 m) as (m' & E).
    + rewrite Hn.
      apply (Qmult_lt_compat_r _ _ (pass_time (activeMessage m))) in Hp;
        [|exact HD].
      assert (Hf : (t0 - clock m) / pass_time (activeMessage m) *
                   pass_time (activeMessage m) == t0 - clock m)
        by (field; lra).
      rewrite Hf in Hp. lra.
    + exists (S (Pos.to_nat p)), m'. split; [exact E|].
      exact (transmit_exit_facts _ _ _ _ E).
  - intros fuel e H.
    destruct (transmit_keeps (fun _ => True) (fun _ _ _ _ => I)
                (fun _ _ _ _ _ _ _ => I) (fun _ _ _ => I) (fun _ _ => I)
                fuel t0 m (Raise e) I H) as (m' & E & _).
    discriminate E.
Qed.

Lemma X5_transmit_ends_and_never_raises_witness :
  0 < pass_time (activeMessage (init message2)) /\
  (exists fuel m',
     transmit fuel 100 (init message2) = Some (Ok m') /\
     100 <= clock m' /\ released m' = 1%nat /\ lcd m' = None /\
     activeMessage m' = message2) /\
  (forall fuel e, transmit fuel 100 (init message2) <> Some (Raise e)).
Proof.
  assert (H : 0 < pass_time (activeMessage (init message2)))
    by (vm_compute; reflexivity).
  split; [exact H|].
  exact (X5_transmit_ends_and_never_raises (init message2) 100 H).
Defined.

(** ** The code table *)






(** ** The button *)

Lemma toggle_from_message1 (m : CWMachine) :
  activeMessage m = message1 -> activeMessage (processButton m) = message2.
Proof.
  intros H. unfold processButton, toggleMessage. cbn [activeMessage set_activeMessage].
  rewrite H. reflexivity.
Qed.

Lemma toggle_from_other (m : CWMachine) :
  activeMessage m <> message1 -> activeMessage (processButton m) = message1.
Proof.
  intros H. unfold processButton, toggleMessage. cbn [activeMessage set_activeMessage].
  destruct (String.eqb_spec (activeMessage m) message1); [contradiction|reflexivity].
Qed.

Lemma pressed_times_message (n : nat) (m : CWMachine) :
  activeMessage (pressed_times (S n) m) =
  if String.eqb (activeMessage m) message1
  then (if Nat.even n then message2 else message1)
  else (if Nat.even n then message1 else message2).
Proof.
  induction n as [|n IH].
  - cbn [pressed_times Nat.even].
    destruct (String.eqb_spec (activeMessage m) message1) as [H|H].
    + now apply toggle_from_message1.
    + now apply toggle_from_other.
  - change (pressed_times (S (S n)) m)
      with (processButton (pressed_times (S n) m)).
    rewrite Nat.even_succ, <- Nat.negb_even.
    destruct (String.eqb (activeMessage m) message1), (Nat.even n);
      cbn [negb]; (apply toggle_from_message1 || apply toggle_from_other);
      rewrite IH; (reflexivity || discriminate).
Qed.

Lemma pressed_times_rest (n : nat) (m : CWMachine) :
  current_state (pressed_times n m) = current_state m /\
  fired (pressed_times n m) = fired m /\
  clock (pressed_times n m) = clock m /\
  redLight (pressed_times n m) = redLight m /\
  blueLight (pressed_times n m) = blueLight m.
Proof.
  induction n as [|n IH]; [repeat split|].
  cbn [pressed_times]. unfold processButton, toggleMessage, set_activeMessage.
  cbn [current_state fired clock redLight blueLight]. exact IH.
Qed.

(** X7: whatever the active message was, after one press of the button
    it is one of the two configured messages, SOS unless it was SOS, and
    further presses go back and forth between the two.  A press touches
    neither the state, the LEDs, the clock nor the log; the pass that
    follows it displays and sends the message it left. *)
Theorem X7_button_sets_the_next_pass (n : nat) (m : CWMachine) :
  let m1 := pressed_times (S n) m in
  activeMessage m1 =
    (if String.eqb (activeMessage m) message1
     then (if Nat.even n then message2 else message1)
     else (if Nat.even n then message1 else message2)) /\
  current_state m1 = current_state m /\
  redLight m1 = redLight m /\ blueLight m1 = blueLight m /\
  clock m1 = clock m /\ fired m1 = fired m /\
  exists m',
    transmit_pass m1 = Ok m' /\
    lcd m' = Some ("Sending:" ++ nl ++ activeMessage m1)%string /\
    actions (fired m') = actions (fired m) ++ encode (activeMessage m1).
Proof.
  cbv zeta.
  destruct (pressed_times_rest (S n) m) as (Hs & Hf & Hc & Hr & Hb).
  split; [apply pressed_times_message|].
  repeat (split; [assumption|]).
  destruct (transmit_pass_emits (pressed_times (S n) m)) as (m' & E & A).
  exists m'. split; [exact E|].
  split; [exact (transmit_pass_lcd _ _ E)|].
  unfold emits in A. rewrite A, Hf. reflexivity.
Qed.

(** ** Each event is its own way back *)

(** X8: in [off] the idle return is the one event that is not allowed:
    firing it raises [TransitionNotAllowed] for [goOff] in [off].  Each
    of the other five events, fired in [off], enters its state, and
    fired once more leaves it for [off] again; the two steps take the
    hold of that state and leave both LEDs as they were in [off]. *)
Theorem X8_twice_is_back_in_off (e : Event) (m : CWMachine) :
  current_state m = off ->
  fire goOff m = Raise (TransitionNotAllowed goOff off) /\
  (e <> goOff ->
   exists m1 m2,
     fire e m = Ok m1 /\ current_state m1 = entered e /\
     fire e m1 = Ok m2 /\ current_state m2 = off /\
     clock m2 == clock m + hold (entered e) /\
     fired m2 = fired m ++ [e; e] /\
     (leds_follow m -> redLight m2 = redLight m /\ blueLight m2 = blueLight m)).
Proof.
  intros Hs. split; [unfold fire; rewrite Hs; reflexivity|]. intros He.
  set (m1 := on_enter (entered e) (set_state (entered e) (log e m))).
  assert (S1 : current_state m1 = entered e)
    by (unfold m1; now rewrite on_enter_state).
  assert (E2 : fire e m1 =
               Ok (set_state off (on_exit (entered e) (log e m1)))).
  { unfold fire. rewrite S1. destruct e; try congruence; reflexivity. }
  exists m1, (set_state off (on_exit (entered e) (log e m1))).
  split; [exact (fire_from_off_eq e m Hs He)|]. split; [exact S1|].
  split; [exact E2|]. split; [reflexivity|]. split; [|split].
  - transitivity (clock m1).
    + destruct e; reflexivity.
    + unfold m1. rewrite on_enter_clock. reflexivity.
  - cbn [fired set_state]. rewrite on_exit_fired. cbn [fired log].
    unfold m1. rewrite on_enter_fired. cbn [fired set_state log].
    now rewrite <- app_assoc.
  - unfold m1. destruct m as [s r b a l rel c f].
    cbn [current_state] in Hs. subst s.
    unfold leds_follow. cbn [redLight blueLight current_state State_eqb].
    intros [-> ->]. destruct e; try congruence; split; reflexivity.
Qed.

Lemma X8_twice_is_back_in_off_witness :
  current_state (init message1) = off /\
  fire goOff (init message1) = Raise (TransitionNotAllowed goOff off) /\
  exists m1 m2,
    fire doDash (init message1) = Ok m1 /\ current_state m1 = dash /\
    fire doDash m1 = Ok m2 /\ current_state m2 = off.
Proof.
  split; [reflexivity|].
  destruct (X8_twice_is_back_in_off doDash (init message1) eq_refl)
    as (H1 & H2).
  split; [exact H1|].
  destruct (H2 ltac:(discriminate)) as (m1 & m2 & E1 & S1 & E2 & S2 & _).
  exists m1, m2. repeat split; assumption.
Defined.

End BeaconExtra.

(** * Properties of the thermostat *)

Module ThermostatFacts.
Import Thermostat ThermostatObs.

Section Environment.

Variable thSensor : nat -> Q.
Variable now : nat -> string.
Variable presses : nat -> list Button.

Local Set Warnings "-notation-for-abbreviation".
Local Notation fahrenheit_at := (ThermostatObs.fahrenheit_at thSensor).
Local Notation record_of := (ThermostatObs.record_of thSensor).
Local Notation after := (ThermostatObs.after thSensor now presses).
Local Notation before := (ThermostatObs.before thSensor now presses).

Lemma getFahrenheit_spec (m : TemperatureMachine) :
  getFahrenheit thSensor m =
  (fahrenheit_at (reads m),
   mkTM (current_state m) (setPoint m) (redLight m) (blueLight m)
        (S (reads m))).
Proof. reflexivity. Qed.

Lemma updateLights_keeps (m : TemperatureMachine) :
  current_state (updateLights thSensor m) = current_state m /\
  setPoint (updateLights thSensor m) = setPoint m /\
  reads (updateLights thSensor m) = S (reads m).
Proof.
  unfold updateLights. rewrite getFahrenheit_spec.
  cbn [current_state setPoint set_blueLight set_redLight redLight blueLight reads].
  destruct (String.eqb (id (current_state m)) "heat").
  - destruct (Qfloor _ <? setPoint m)%Z; cbn; auto.
  - destruct (String.eqb (id (current_state m)) "cool").
    + destruct (Qfloor _ >? setPoint m)%Z; cbn; auto.
    + cbn; auto.
Qed.

Lemma second_line_spec (m : TemperatureMachine) (a : Z) :
  second_line thSensor m a =
  if (a <? 6)%Z
  then (temp_line (fahrenheit_at (reads m)),
        snd (getFahrenheit thSensor m), a)
  else (mode_line (current_state m) (setPoint m),
        (if (a >=? 11)%Z then updateLights thSensor m else m),
        (if (a >=? 11)%Z then 1%Z else a)).
Proof.
  unfold second_line. destruct (a <? 6)%Z; [reflexivity|].
  destruct (a >=? 11)%Z; reflexivity.
Qed.

Lemma second_line_keeps (m : TemperatureMachine) (a : Z) :
  current_state (snd (fst (second_line thSensor m a))) = current_state m /\
  setPoint (snd (fst (second_line thSensor m a))) = setPoint m.
Proof.
  rewrite second_line_spec. destruct (a <? 6)%Z; cbn [fst snd].
  - rewrite getFahrenheit_spec. cbn. auto.
  - destruct (a >=? 11)%Z; [|auto].
    destruct (updateLights_keeps m) as (H1 & H2 & _). auto.
Qed.

(** What one iteration does to each field of the worker. *)
Lemma tick_altCounter (w : Worker) :
  altCounter (tick thSensor now w) =
  ((if (altCounter w <? 6)%Z then altCounter w
    else if (altCounter w >=? 11)%Z then 1 else altCounter w) + 1)%Z.
Proof.
  unfold tick. rewrite second_line_spec.
  destruct (altCounter w <? 6)%Z;
    [|destruct (altCounter w >=? 11)%Z];
    destruct (counter w mod 30 =? 0)%Z; reflexivity.
Qed.

Lemma tick_lcd (w : Worker) :
  lcd (tick thSensor now w) =
  Some (now (ticks w) ++ nl ++
        (if (altCounter w <? 6)%Z
         then temp_line (fahrenheit_at (reads (machine w)))
         else mode_line (current_state (machine w)) (setPoint (machine w))))%string.
Proof.
  unfold tick. rewrite second_line_spec.
  destruct (altCounter w <? 6)%Z;
    [|destruct (altCounter w >=? 11)%Z];
    destruct (counter w mod 30 =? 0)%Z; reflexivity.
Qed.

Lemma tick_ticks (w : Worker) : ticks (tick thSensor now w) = S (ticks w).
Proof.
  unfold tick. destruct (second_line thSensor _ _) as [[l m1] a1].
  destruct (counter w mod 30 =? 0)%Z;
    [destruct (setupSerialOutput thSensor m1)|]; reflexivity.
Qed.

Lemma tick_counter (w : Worker) :
  counter (tick thSensor now w) =
  if (counter w mod 30 =? 0)%Z then 1%Z else (counter w + 1)%Z.
Proof.
  unfold tick. destruct (second_line thSensor _ _) as [[l m1] a1].
  destruct (counter w mod 30 =? 0)%Z;
    [destruct (setupSerialOutput thSensor m1)|]; reflexivity.
Qed.

Lemma tick_serial (w : Worker) :
  serial (tick thSensor now w) =
  if (counter w mod 30 =? 0)%Z
  then serial w ++ [(record_of (machine (tick thSensor now w)) ++ nl)%string]
  else serial w.
Proof.
  unfold tick. destruct (second_line thSensor _ _) as [[l m1] a1].
  destruct (counter w mod 30 =? 0)%Z; [|reflexivity].
  unfold setupSerialOutput. rewrite getFahrenheit_spec. reflexivity.
Qed.

Lemma tick_machine_keeps (w : Worker) :
  current_state (machine (tick thSensor now w)) = current_state (machine w) /\
  setPoint (machine (tick thSensor now w)) = setPoint (machine w).
Proof.
  pose proof (second_line_keeps (machine w) (altCounter w)) as H.
  unfold tick. destruct (second_line thSensor _ _) as [[l m1] a1].
  cbn [fst snd] in H.
  destruct (counter w mod 30 =? 0)%Z; [|exact H].
  unfold setupSerialOutput. rewrite getFahrenheit_spec. exact H.
Qed.

(** ** The worker after any number of iterations *)

Lemma mod_succ (k d : nat) :
  (0 < d)%nat ->
  (S k mod d = if (S (k mod d) =? d)%nat then 0 else S (k mod d))%nat.
Proof.
  intros Hd.
  pose proof (Nat.div_mod_eq k d) as E.
  pose proof (Nat.mod_upper_bound k d ltac:(lia)) as B.
  destruct (Nat.eqb_spec (S (k mod d)) d) as [H|H].
  - symmetry. apply Nat.mod_unique with (q := S (k / d)); nia.
  - symmetry. apply Nat.mod_unique with (q := (k / d)%nat); nia.
Qed.

Lemma div_succ (k d : nat) :
  (0 < d)%nat ->
  (S k / d = if (S k mod d =? 0)%nat then S (k / d) else k / d)%nat.
Proof.
  intros Hd. rewrite (mod_succ k d Hd).
  pose proof (Nat.div_mod_eq k d) as E.
  pose proof (Nat.mod_upper_bound k d ltac:(lia)) as B.
  destruct (Nat.eqb_spec (S (k mod d)) d) as [H|H]; cbn [Nat.eqb].
  - symmetry. apply Nat.div_unique with (r := 0%nat); nia.
  - symmetry. apply Nat.div_unique with (r := S (k mod d)); nia.
Qed.

Lemma after_S (m : TemperatureMachine) (k : nat) : after m (S k) = tick thSensor now (before m k).
Proof. reflexivity. Qed.

Lemma after_ticks (m : TemperatureMachine) (k : nat) : ticks (after m k) = k.
Proof.
  induction k as [|k IH]; [reflexivity|].
  rewrite after_S, tick_ticks. cbn [before pressed ticks]. now rewrite IH.
Qed.

Lemma after_counter (m : TemperatureMachine) (k : nat) :
  counter (after m k) = (Z.of_nat (k mod 30) + 1)%Z.
Proof.
  induction k as [|k IH]; [reflexivity|].
  rewrite after_S, tick_counter. cbn [before pressed counter]. rewrite IH.
  rewrite (mod_succ k 30) by lia.
  pose proof (Nat.mod_upper_bound k 30 ltac:(lia)) as B.
  destruct (Nat.eqb_spec (S (k mod 30)) 30) as [H|H].
  - replace (Z.of_nat (k mod 30) + 1)%Z with 30%Z by lia. reflexivity.
  - rewrite Z.mod_small by lia.
    destruct (Z.eqb_spec (Z.of_nat (k mod 30) + 1) 0); lia.
Qed.

Lemma emits_iff (m : TemperatureMachine) (k : nat) :
  (counter (before m k) mod 30 =? 0)%Z = (S k mod 30 =? 0)%nat.
Proof.
  cbn [before pressed counter]. rewrite after_counter.
  rewrite (mod_succ k 30) by lia.
  pose proof (Nat.mod_upper_bound k 30 ltac:(lia)) as B.
  destruct (Nat.eqb_spec (S (k mod 30)) 30) as [H|H].
  - replace (Z.of_nat (k mod 30) + 1)%Z with 30%Z by lia. reflexivity.
  - rewrite Z.mod_small by lia. cbn [Nat.eqb].
    destruct (Z.eqb_spec (Z.of_nat (k mod 30) + 1) 0); [lia | reflexivity].
Qed.

Lemma after_serial (m : TemperatureMachine) (k : nat) :
  serial (after m (S k)) =
  if (S k mod 30 =? 0)%nat
  then serial (after m k) ++ [(record_of (machine (after m (S k))) ++ nl)%string]
  else serial (after m k).
Proof.
  rewrite after_S, tick_serial, emits_iff. reflexivity.
Qed.

Lemma after_serial_length (m : TemperatureMachine) (k : nat) :
  List.length (serial (after m k)) = (k / 30)%nat.
Proof.
  induction k as [|k IH]; [reflexivity|].
  rewrite after_serial, (div_succ k 30) by lia.
  destruct (S k mod 30 =? 0)%nat; [|exact IH].
  rewrite length_app, IH. cbn [List.length]. lia.
Qed.

Lemma after_altCounter (m : TemperatureMachine) (j : nat) :
  altCounter (after m (S j)) = (Z.of_nat (j mod 10) + 2)%Z.
Proof.
  induction j as [|j IH]; [reflexivity|].
  rewrite after_S, tick_altCounter. cbn [before pressed altCounter]. rewrite IH.
  rewrite (mod_succ j 10) by lia.
  pose proof (Nat.mod_upper_bound j 10 ltac:(lia)) as B.
  destruct (Nat.eqb_spec (S (j mod 10)) 10) as [H|H].
  - replace (Z.of_nat (j mod 10) + 2)%Z with 11%Z by lia. reflexivity.
  - destruct (Z.ltb_spec (Z.of_nat (j mod 10) + 2) 6); [lia|].
    destruct (Z.geb_spec (Z.of_nat (j mod 10) + 2) 11); lia.
Qed.

Lemma temp_tick_altCounter (m : TemperatureMachine) (t : nat) :
  (altCounter (before m t) <? 6)%Z = temp_tick t.
Proof.
  cbn [before pressed altCounter]. destruct t as [|j]; [reflexivity|].
  rewrite after_altCounter. unfold temp_tick.
  replace (S j - 1)%nat with j by lia. cbn [Nat.eqb orb].
  destruct (Nat.leb_spec (j mod 10) 3);
    destruct (Z.ltb_spec (Z.of_nat (j mod 10) + 2) 6); lia || reflexivity.
Qed.


Lemma append_assoc (a b c : string) :
  ((a ++ b) ++ c = a ++ b ++ c)%string.
Proof.
  induction a as [|x a IH]; cbn [append]; [reflexivity | now rewrite IH].
Qed.

Lemma fire_cycle_spec (m : TemperatureMachine) :
  exists m',
    fire thSensor cycle m = Ok m' /\
    current_state m' = ring (current_state m) /\
    setPoint m' = setPoint m.
Proof.
  unfold fire. destruct m as [s p r b n]. cbn [current_state].
  destruct s; cbn [transitions target State_eqb on_exit on_enter ring];
    (eexists; split; [reflexivity|]);
    match goal with
    | |- context [updateLights thSensor ?x] =>
        destruct (updateLights_keeps x) as (H1 & H2 & _);
        rewrite H1, H2; split; reflexivity
    end.
Qed.

Lemma line_contents_differ (f : Q) (s : State) (p : Z) :
  temp_line f <> mode_line s p.
Proof.
  unfold temp_line, mode_line, ljust. destruct s; simpl; discriminate.
Qed.

(** ** The claims about the thermostat *)

(** C3, on the code: the worker does not alternate five and five.  Tick
    number [t + 1] renders the temperature exactly when [temp_tick t]
    holds: ticks 1 to 5, then the mode and setpoint on the six ticks 6 to
    11, the temperature on the four ticks 12 to 15, the mode and setpoint
    on ticks 16 to 21, and so on with four and six.  The counter is reset
    during tick 11, after that tick's line has been chosen, and is 2 when
    tick 12 starts. *)
Theorem C3_alternation_is_four_and_six (m : TemperatureMachine) :
  (forall t,
     lcd (after m (S t)) =
     Some (now t ++ nl ++
           (if temp_tick t
            then temp_line (fahrenheit_at (reads (machine (before m t))))
            else mode_line (current_state (machine (before m t)))
                           (setPoint (machine (before m t)))))%string) /\
  map temp_tick (seq 0 22) =
    [true; true; true; true; true;
     false; false; false; false; false; false;
     true; true; true; true;
     false; false; false; false; false; false;
     true] /\
  lcd (after m 11) =
    Some (now 10%nat ++ nl ++
          mode_line (current_state (machine (before m 10)))
                    (setPoint (machine (before m 10))))%string /\
  altCounter (after m 10) = 11%Z /\
  altCounter (after m 11) = 2%Z /\
  (forall f s p, temp_line f <> mode_line s p).
Proof.
  assert (H : forall t,
     lcd (after m (S t)) =
     Some (now t ++ nl ++
           (if temp_tick t
            then temp_line (fahrenheit_at (reads (machine (before m t))))
            else mode_line (current_state (machine (before m t)))
                           (setPoint (machine (before m t)))))%string).
  { intros t. rewrite after_S, tick_lcd, temp_tick_altCounter.
    cbn [before pressed ticks]. now rewrite after_ticks. }
  split; [exact H|]. split; [reflexivity|].
  split; [exact (H 10%nat)|].
  split; [exact (after_altCounter m 9)|].
  split; [exact (after_altCounter m 10)|].
  exact line_contents_differ.
Qed.

(** C4: after [k] ticks the worker has written [k / 30] records, one on
    each tick whose number is a multiple of 30 and none on the others;
    the counter is 1 right after a record is written; and the record is
    the state identifier, the floored Fahrenheit value just read and the
    setpoint, separated by commas and ended by a line feed. *)
Theorem C4_serial_record_every_30_ticks (m : TemperatureMachine) (k : nat) :
  List.length (serial (after m k)) = (k / 30)%nat /\
  serial (after m (S k)) =
    (if (S k mod 30 =? 0)%nat
     then serial (after m k) ++
          [(id (current_state (machine (after m (S k)))) ++ "," ++
            dec (Qfloor ((9#5) *
                         thSensor (pred (reads (machine (after m (S k))))) +
                         32)) ++ "," ++
            dec (setPoint (machine (after m (S k)))) ++ nl)%string]
     else serial (after m k)) /\
  counter (after m (S k)) =
    (if (S k mod 30 =? 0)%nat then 1 else counter (after m k) + 1)%Z /\
  current_state (machine (after m (S k))) =
    current_state (machine (before m k)) /\
  setPoint (machine (after m (S k))) = setPoint (machine (before m k)).
Proof.
  split; [apply after_serial_length|].
  split.
  - rewrite after_serial. destruct (S k mod 30 =? 0)%nat; [|reflexivity].
    unfold record_of, fahrenheit_at. now rewrite !append_assoc.
  - split.
    + rewrite after_S, tick_counter, emits_iff. reflexivity.
    + rewrite after_S. apply tick_machine_keeps.
Qed.

(** C5: [updateLights] in [heat] pulses the red LED when the floored
    temperature is below the setpoint and holds it on otherwise, equality
    included; in [cool] it pulses the blue LED when the floored
    temperature is above the setpoint and holds it on otherwise; in [off]
    both LEDs are off.  The other LED is off in each case. *)
Theorem C5_updateLights (m : TemperatureMachine) :
  let temp := Qfloor ((9#5) * thSensor (reads m) + 32) in
  let m' := updateLights thSensor m in
  (current_state m = heat -> (temp < setPoint m)%Z ->
   redLight m' = LedPulse 1 1 /\ blueLight m' = LedOff) /\
  (current_state m = heat -> (setPoint m <= temp)%Z ->
   redLight m' = LedOn /\ blueLight m' = LedOff) /\
  (current_state m = cool -> (temp > setPoint m)%Z ->
   blueLight m' = LedPulse 1 1 /\ redLight m' = LedOff) /\
  (current_state m = cool -> (temp <= setPoint m)%Z ->
   blueLight m' = LedOn /\ redLight m' = LedOff) /\
  (current_state m = off ->
   redLight m' = LedOff /\ blueLight m' = LedOff).
Proof.
  cbv zeta. unfold updateLights. rewrite getFahrenheit_spec.
  unfold fahrenheit_at.
  cbn [current_state setPoint set_blueLight set_redLight redLight blueLight reads].
  set (temp := Qfloor _). clearbody temp.
  split; [|split; [|split; [|split]]].
  - intros Hs Ht. rewrite Hs. cbn.
    destruct (Z.ltb_spec temp (setPoint m)); [|lia]. split; reflexivity.
  - intros Hs Ht. rewrite Hs. cbn.
    destruct (Z.ltb_spec temp (setPoint m)); [lia|]. split; reflexivity.
  - intros Hs Ht. rewrite Hs. cbn.
    destruct (Z.gtb_spec temp (setPoint m)); [|lia]. split; reflexivity.
  - intros Hs Ht. rewrite Hs. cbn.
    destruct (Z.gtb_spec temp (setPoint m)); [lia|]. split; reflexivity.
  - intros Hs. rewrite Hs. cbn. split; reflexivity.
Qed.

(** C6: from every state the cycle event is legal and follows the ring
    off, heat, cool, off; one or two cycles leave the starting state,
    three return to it.  The setpoint is not touched. *)
Theorem C6_three_cycles_return (m : TemperatureMachine) :
  ring off = heat /\ ring heat = cool /\ ring cool = off /\
  exists m1 m2 m3,
    fire thSensor cycle m = Ok m1 /\
    fire thSensor cycle m1 = Ok m2 /\
    fire thSensor cycle m2 = Ok m3 /\
    current_state m1 = ring (current_state m) /\
    current_state m2 = ring (current_state m1) /\
    current_state m3 = ring (current_state m2) /\
    current_state m1 <> current_state m /\
    current_state m2 <> current_state m /\
    current_state m3 = current_state m /\
    setPoint m3 = setPoint m.
Proof.
  split; [reflexivity|]. split; [reflexivity|]. split; [reflexivity|].
  destruct (fire_cycle_spec m) as (m1 & E1 & S1 & P1).
  destruct (fire_cycle_spec m1) as (m2 & E2 & S2 & P2).
  destruct (fire_cycle_spec m2) as (m3 & E3 & S3 & P3).
  exists m1, m2, m3.
  repeat (split; [assumption|]).
  rewrite S3, S2, S1, P3, P2, P1.
  destruct (current_state m); cbn [ring]; repeat split; discriminate.
Qed.

End Environment.

(** ** The theorems at concrete inputs *)

Lemma C5_updateLights_witness :
  redLight (updateLights (room 20) (mkTM heat 72 LedOff LedOff 0)) =
    LedPulse 1 1 /\
  redLight (updateLights (room 20) (mkTM heat 68 LedOff LedOff 0)) = LedOn /\
  blueLight (updateLights (room 20) (mkTM cool 67 LedOff LedOff 0)) =
    LedPulse 1 1 /\
  blueLight (updateLights (room 20) (mkTM cool 68 LedOff LedOff 0)) = LedOn /\
  redLight (updateLights (room 20) (mkTM off 72 LedOn LedOn 0)) = LedOff /\
  blueLight (updateLights (room 20) (mkTM off 72 LedOn LedOn 0)) = LedOff.
Proof.
  split.
  { apply (C5_updateLights (room 20) (mkTM heat 72 LedOff LedOff 0));
      [reflexivity | vm_compute; reflexivity]. }
  split.
  { apply (C5_updateLights (room 20) (mkTM heat 68 LedOff LedOff 0));
      [reflexivity | vm_compute; discriminate]. }
  split.
  { apply (C5_updateLights (room 20) (mkTM cool 67 LedOff LedOff 0));
      [reflexivity | vm_compute; reflexivity]. }
  split.
  { apply (C5_updateLights (room 20) (mkTM cool 68 LedOff LedOff 0));
      [reflexivity | vm_compute; discriminate]. }
  apply (C5_updateLights (room 20) (mkTM off 72 LedOn LedOn 0)).
  reflexivity.
Defined.

(** The screen on ticks 10, 11, 12, 15 and 16 and the serial port after a
    minute, in that room. *)
Example screen_on_tick_11 :
  lcd (run (room 20) wallclock quiet machine0 11) =
    Some ("2024-01-01 00:00" ++ nl ++ "Off:72F         ")%string /\
  lcd (run (room 20) wallclock quiet machine0 12) =
    Some ("2024-01-01 00:00" ++ nl ++ "Temp:68F        ")%string /\
  lcd (run (room 20) wallclock quiet machine0 15) =
    Some ("2024-01-01 00:00" ++ nl ++ "Temp:68F        ")%string /\
  lcd (run (room 20) wallclock quiet machine0 16) =
    Some ("2024-01-01 00:00" ++ nl ++ "Off:72F         ")%string.
Proof. repeat split; vm_compute; reflexivity. Qed.

Example serial_after_a_minute :
  serial (run (room 20) wallclock one_press machine0 59) =
    [("heat,68,72" ++ nl)%string] /\
  serial (run (room 20) wallclock one_press machine0 60) =
    [("heat,68,72" ++ nl)%string; ("heat,68,72" ++ nl)%string].
Proof. split; vm_compute; reflexivity. Qed.

End ThermostatFacts.

(** * More on the thermostat: buttons, lights and the serial record *)

Module ThermostatExtra.
Import Thermostat ThermostatObs ThermostatFacts.

Section Environment.

Variable thSensor : nat -> Q.
Variable now : nat -> string.
Variable presses : nat -> list Button.

Local Set Warnings "-notation-for-abbreviation".
Local Notation fahrenheit_at := (ThermostatObs.fahrenheit_at thSensor).
Local Notation after := (ThermostatObs.after thSensor now presses).
Local Notation before := (ThermostatObs.before thSensor now presses).
Local Notation updateLights := (Thermostat.updateLights thSensor).
Local Notation press := (Thermostat.press thSensor).

(** ** [updateLights] in one equation *)

Lemma updateLights_eq (m : TemperatureMachine) :
  updateLights m =
  mkTM (current_state m) (setPoint m)
       (fst (lights_for (current_state m) (setPoint m)
                        (Qfloor (fahrenheit_at (reads m)))))
       (snd (lights_for (current_state m) (setPoint m)
                        (Qfloor (fahrenheit_at (reads m)))))
       (S (reads m)).
Proof.
  unfold Thermostat.updateLights. rewrite getFahrenheit_spec.
  cbn [current_state setPoint set_blueLight set_redLight redLight
       blueLight reads].
  destruct (current_state m); cbn [id String.eqb Ascii.eqb Bool.eqb lights_for];
    try reflexivity.
  - destruct (Qfloor _ <? setPoint m)%Z; reflexivity.
  - destruct (Qfloor _ >? setPoint m)%Z; reflexivity.
Qed.

Lemma lights_for_follow (s : State) (p temp : Z) :
  lit (fst (lights_for s p temp)) = State_eqb s heat /\
  lit (snd (lights_for s p temp)) = State_eqb s cool.
Proof.
  destruct s; cbn [lights_for fst snd State_eqb lit].
  - split; reflexivity.
  - destruct (temp <? p)%Z; split; reflexivity.
  - destruct (temp >? p)%Z; split; reflexivity.
Qed.

Lemma updateLights_follow (m : TemperatureMachine) :
  lights_follow (updateLights m).
Proof.
  rewrite updateLights_eq. unfold lights_follow.
  cbn [redLight blueLight current_state]. apply lights_for_follow.
Qed.

Lemma fire_cycle_eq (m : TemperatureMachine) :
  fire thSensor cycle m =
  Ok (updateLights
        (set_state (ring (current_state m)) (on_exit (current_state m) m))).
Proof. unfold fire. destruct (current_state m); reflexivity. Qed.

Lemma on_exit_keeps (s : State) (m : TemperatureMachine) :
  current_state (on_exit s m) = current_state m /\
  setPoint (on_exit s m) = setPoint m /\
  reads (on_exit s m) = reads m.
Proof. destruct s; repeat split. Qed.

(** What one press does to the state, the setpoint and the number of
    sensor reads. *)
Lemma press_spec (b : Button) (m : TemperatureMachine) :
  current_state (press b m) =
    (if Button_eqb greenButton b then ring (current_state m)
     else current_state m) /\
  setPoint (press b m) =
    (setPoint m + (if Button_eqb redButton b then 1 else 0)
     - (if Button_eqb blueButton b then 1 else 0))%Z /\
  reads (press b m) =
    (reads m + (if Button_eqb greenButton b then 2 else 1))%nat /\
  lights_follow (press b m).
Proof.
  destruct b; unfold Thermostat.press.
  - unfold processTempStateButton. rewrite fire_cycle_eq. cbn [bind].
    split; [|split; [|split; [|apply updateLights_follow]]];
      rewrite !updateLights_eq;
      cbn [current_state setPoint reads set_state Button_eqb];
      destruct (on_exit_keeps (current_state m) m) as (H1 & H2 & H3);
      rewrite ?H2, ?H3; try reflexivity; lia.
  - unfold processTempIncButton.
    split; [|split; [|split; [|apply updateLights_follow]]];
      rewrite updateLights_eq;
      cbn [current_state setPoint reads set_setPoint Button_eqb];
      try reflexivity; lia.
  - unfold processTempDecButton.
    split; [|split; [|split; [|apply updateLights_follow]]];
      rewrite updateLights_eq;
      cbn [current_state setPoint reads set_setPoint Button_eqb];
      try reflexivity; lia.
Qed.

Lemma count_cons (b x : Button) (bs : list Button) :
  count b (x :: bs) = ((if Button_eqb b x then 1 else 0) + count b bs)%nat.
Proof. unfold count. cbn [filter]. destruct (Button_eqb b x); reflexivity. Qed.

Lemma ring_three (s : State) : ring (ring (ring s)) = s.
Proof. destruct s; reflexivity. Qed.

(** X9: after any sequence of presses the state is the starting state
    moved along the ring once per green press, and the setpoint is the
    starting setpoint plus the number of red presses minus the number of
    blue presses, with no lower or upper limit.  No press raises, and
    the sensor is read twice for a green press and once for a red or a
    blue one. *)
Theorem X9_presses_add_up (bs : list Button) (m : TemperatureMachine) :
  let m' := fold_left (fun m b => press b m) bs m in
  current_state m' = Nat.iter (count greenButton bs) ring (current_state m) /\
  setPoint m' =
    (setPoint m + Z.of_nat (count redButton bs)
     - Z.of_nat (count blueButton bs))%Z /\
  reads m' =
    (reads m + 2 * count greenButton bs + count redButton bs
     + count blueButton bs)%nat /\
  (forall x, exists m1,
     processTempStateButton thSensor x = Ok m1 /\ press greenButton x = m1).
Proof.
  cbv zeta. split; [|split; [|split]].
  - revert m. induction bs as [|b bs IH]; intros m; [reflexivity|].
    cbn [fold_left]. rewrite IH, count_cons.
    destruct (press_spec b m) as (H & _). rewrite H.
    destruct (Button_eqb greenButton b); [|reflexivity].
    cbn [Nat.add]. now rewrite Nat.iter_succ_r.
  - revert m. induction bs as [|b bs IH]; intros m;
      [cbn [fold_left count filter List.length]; lia|].
    cbn [fold_left]. rewrite IH, !count_cons.
    destruct (press_spec b m) as (_ & H & _). rewrite H.
    destruct b; cbn [Button_eqb]; lia.
  - revert m. induction bs as [|b bs IH]; intros m;
      [cbn [fold_left count filter List.length]; lia|].
    cbn [fold_left]. rewrite IH, !count_cons.
    destruct (press_spec b m) as (_ & _ & H & _). rewrite H.
    destruct b; cbn [Button_eqb]; lia.
  - intros x. unfold Thermostat.press, processTempStateButton.
    rewrite fire_cycle_eq. cbn [bind]. eexists. split; reflexivity.
Qed.

(** ** The lights under the worker *)

Lemma getFahrenheit_keeps (m : TemperatureMachine) :
  current_state (snd (getFahrenheit thSensor m)) = current_state m /\
  redLight (snd (getFahrenheit thSensor m)) = redLight m /\
  blueLight (snd (getFahrenheit thSensor m)) = blueLight m /\
  reads (snd (getFahrenheit thSensor m)) = S (reads m).
Proof. rewrite getFahrenheit_spec. repeat split. Qed.

Lemma tick_machine (w : Worker) :
  machine (tick thSensor now w) =
  let m1 := if (altCounter w <? 6)%Z
            then snd (getFahrenheit thSensor (machine w))
            else if (altCounter w >=? 11)%Z
                 then updateLights (machine w)
                 else machine w in
  if (counter w mod 30 =? 0)%Z then snd (getFahrenheit thSensor m1) else m1.
Proof.
  unfold tick. rewrite second_line_spec.
  destruct (altCounter w <? 6)%Z;
    [|destruct (altCounter w >=? 11)%Z];
    destruct (counter w mod 30 =? 0)%Z; reflexivity.
Qed.

Lemma refresh_tick_altCounter (m : TemperatureMachine) (t : nat) :
  (altCounter (before m t) >=? 11)%Z = refresh_tick t.
Proof.
  cbn [ThermostatObs.before pressed altCounter].
  destruct t as [|j]; [reflexivity|].
  fold (after m (S j)). rewrite after_altCounter. unfold refresh_tick.
  rewrite (mod_succ j 10) by lia.
  pose proof (Nat.mod_upper_bound j 10 ltac:(lia)) as B.
  cbn [Nat.ltb Nat.leb andb].
  destruct (Nat.eqb_spec (S (j mod 10)) 10) as [H|H]; cbn [Nat.eqb].
  - destruct (Z.geb_spec (Z.of_nat (j mod 10) + 2) 11); [reflexivity|lia].
  - destruct (Z.geb_spec (Z.of_nat (j mod 10) + 2) 11); [lia|reflexivity].
Qed.

Lemma lights_follow_same (m m' : TemperatureMachine) :
  current_state m' = current_state m -> redLight m' = redLight m ->
  blueLight m' = blueLight m -> lights_follow m -> lights_follow m'.
Proof. unfold lights_follow. intros -> -> ->. exact (fun H => H). Qed.

Lemma lights_follow_read (m : TemperatureMachine) :
  lights_follow m -> lights_follow (snd (getFahrenheit thSensor m)).
Proof.
  destruct (getFahrenheit_keeps m) as (H1 & H2 & H3 & _).
  now apply lights_follow_same.
Qed.

Lemma lights_follow_tick (w : Worker) :
  lights_follow (machine w) -> lights_follow (machine (tick thSensor now w)).
Proof.
  intros H. rewrite tick_machine. cbv zeta.
  assert (H1 : lights_follow
                 (if (altCounter w <? 6)%Z
                  then snd (getFahrenheit thSensor (machine w))
                  else if (altCounter w >=? 11)%Z
                       then updateLights (machine w)
                       else machine w)).
  { destruct (altCounter w <? 6)%Z; [now apply lights_follow_read|].
    destruct (altCounter w >=? 11)%Z; [apply updateLights_follow | exact H]. }
  destruct (counter w mod 30 =? 0)%Z;
    [now apply lights_follow_read | exact H1].
Qed.

Lemma lights_follow_presses (bs : list Button) :
  forall m, lights_follow m ->
            lights_follow (fold_left (fun m b => press b m) bs m).
Proof.
  induction bs as [|b bs IH]; intros m H; [exact H|].
  cbn [fold_left]. apply IH. apply press_spec.
Qed.

Lemma lights_follow_after (m : TemperatureMachine) (k : nat) :
  lights_follow m -> lights_follow (machine (after m k)).
Proof.
  intros H. induction k as [|k IH]; [exact H|].
  change (after m (S k)) with (tick thSensor now (before m k)).
  apply lights_follow_tick. cbn [ThermostatObs.before pressed machine].
  now apply lights_follow_presses.
Qed.

(** X10: [updateLights] always leaves the red LED lit (steady or pulsing)
    exactly in [heat] and the blue one exactly in [cool], whatever the
    LEDs were before; so does every button press.  Once that holds it
    holds after every tick of the worker, whatever buttons are pressed in
    between: the two LEDs are never lit together and both are off in
    [off]. *)
Theorem X10_lights_follow_mode (m : TemperatureMachine) (b : Button)
    (k : nat) :
  lights_follow (updateLights m) /\
  lights_follow (press b m) /\
  (lights_follow m ->
   lights_follow (machine (after m k)) /\
   lit (redLight (machine (after m k))) &&
   lit (blueLight (machine (after m k))) = false /\
   (current_state (machine (after m k)) = off ->
    redLight (machine (after m k)) = LedOff /\
    blueLight (machine (after m k)) = LedOff)).
Proof.
  split; [apply updateLights_follow|]. split; [apply press_spec|].
  intros H. pose proof (lights_follow_after m k H) as [Hr Hb].
  split; [split; assumption|]. split.
  - rewrite Hr, Hb. destruct (current_state (machine (after m k))); reflexivity.
  - intros Hs. rewrite Hs in Hr, Hb. cbn [State_eqb] in Hr, Hb.
    destruct (redLight (machine (after m k))); try discriminate Hr.
    destruct (blueLight (machine (after m k))); try discriminate Hb.
    split; reflexivity.
Qed.

(** X11: what [updateLights] leaves depends on the state, the setpoint
    and the temperature read, not on what the LEDs were doing; called
    again while the floored temperature is the same, it changes nothing
    but the count of sensor reads. *)
Theorem X11_updateLights_again (m : TemperatureMachine) :
  (forall red blue,
     updateLights (set_redLight red (set_blueLight blue m)) =
     updateLights m) /\
  (Qfloor (fahrenheit_at (S (reads m))) = Qfloor (fahrenheit_at (reads m)) ->
   updateLights (updateLights m) =
   mkTM (current_state (updateLights m)) (setPoint (updateLights m))
        (redLight (updateLights m)) (blueLight (updateLights m))
        (S (S (reads m)))).
Proof.
  split.
  - intros red blue. rewrite !updateLights_eq. reflexivity.
  - intros H. rewrite (updateLights_eq (updateLights m)).
    rewrite !updateLights_eq.
    cbn [current_state setPoint redLight blueLight reads]. now rewrite H.
Qed.

(** X12: the worker calls [updateLights] once in ten ticks, on ticks 11,
    21, 31 and so on, and on no other tick: without a button press the
    LEDs are as they were after tick 1, 2, ..., 10, however the
    temperature moves.  It reads the sensor once on a tick that renders
    the temperature or refreshes the LEDs, and once more on a tick that
    writes a record. *)
Theorem X12_worker_refreshes_every_ten_ticks (m : TemperatureMachine)
    (t : nat) :
  let m0 := machine (before m t) in
  let m1 := machine (after m (S t)) in
  redLight m1 =
    redLight (if refresh_tick t then updateLights m0 else m0) /\
  blueLight m1 =
    blueLight (if refresh_tick t then updateLights m0 else m0) /\
  reads m1 =
    (reads m0 + (if temp_tick t || refresh_tick t then 1 else 0)
     + (if (S t mod 30 =? 0)%nat then 1 else 0))%nat /\
  temp_tick t && refresh_tick t = false.
Proof.
  cbv zeta.
  change (after m (S t)) with (tick thSensor now (before m t)).
  rewrite tick_machine. cbv zeta.
  rewrite temp_tick_altCounter, refresh_tick_altCounter, emits_iff.
  assert (Hex : temp_tick t && refresh_tick t = false).
  { rewrite <- (temp_tick_altCounter thSensor now presses m t).
    rewrite <- (refresh_tick_altCounter m t).
    destruct (Z.ltb_spec (altCounter (before m t)) 6);
      destruct (Z.geb_spec (altCounter (before m t)) 11); try reflexivity; lia. }
  set (m0 := machine (before m t)).
  destruct (getFahrenheit_keeps m0) as (_ & R0 & B0 & N0).
  destruct (temp_tick t), (refresh_tick t); try discriminate Hex;
    destruct (S t mod 30 =? 0)%nat; cbn [orb];
    repeat match goal with
           | |- context [snd (getFahrenheit thSensor ?x)] =>
               let H1 := fresh in let H2 := fresh in
               let H3 := fresh in let H4 := fresh in
               destruct (getFahrenheit_keeps x) as (H1 & H2 & H3 & H4);
               rewrite ?H2, ?H3, ?H4; clear H1 H2 H3 H4
           end;
    rewrite ?updateLights_eq; cbn [redLight blueLight reads];
    repeat split; try reflexivity; lia.
Qed.

(** X13: in [heat] the red LED pulses exactly when the temperature is
    below the setpoint and is steady otherwise.  In [cool] the blue LED
    pulses exactly when the temperature is at least one degree above the
    setpoint: the comparison is made on the floored temperature, so
    within the degree above the setpoint the blue LED is steady. *)
Theorem X13_pulse_thresholds (m : TemperatureMachine) :
  let f := (9#5) * thSensor (reads m) + 32 in
  (current_state m = heat ->
   (f < inject_Z (setPoint m) ->
    redLight (updateLights m) = LedPulse 1 1) /\
   (inject_Z (setPoint m) <= f -> redLight (updateLights m) = LedOn)) /\
  (current_state m = cool ->
   (inject_Z (setPoint m) + 1 <= f ->
    blueLight (updateLights m) = LedPulse 1 1) /\
   (f < inject_Z (setPoint m) + 1 -> blueLight (updateLights m) = LedOn)).
Proof.
  cbv zeta. rewrite updateLights_eq. unfold ThermostatObs.fahrenheit_at.
  cbn [redLight blueLight].
  set (f := (9#5) * thSensor (reads m) + 32).
  pose proof (Qfloor_le f) as Hlo. pose proof (Qlt_floor f) as Hhi.
  split; intros Hs; rewrite Hs; cbn [lights_for fst snd]; split; intros H.
  - destruct (Z.ltb_spec (Qfloor f) (setPoint m)) as [L|L]; [reflexivity|].
    rewrite Zle_Qle in L. lra.
  - destruct (Z.ltb_spec (Qfloor f) (setPoint m)) as [L|L]; [|reflexivity].
    assert (L' : (Qfloor f + 1 <= setPoint m)%Z) by lia.
    rewrite Zle_Qle in L'. lra.
  - destruct (Z.gtb_spec (Qfloor f) (setPoint m)) as [L|L]; [reflexivity|].
    assert (L' : (Qfloor f + 1 <= setPoint m + 1)%Z) by lia.
    rewrite Zle_Qle, (inject_Z_plus (setPoint m) 1) in L'.
    change (inject_Z 1) with 1 in L'. lra.
  - destruct (Z.gtb_spec (Qfloor f) (setPoint m)) as [L|L]; [|reflexivity].
    assert (L' : (setPoint m + 1 <= Qfloor f)%Z) by lia.
    rewrite Zle_Qle, (inject_Z_plus (setPoint m) 1) in L'.
    change (inject_Z 1) with 1 in L'. lra.
Qed.

End Environment.

(** ** The serial record can be read back *)

Lemma digits_no_comma (d : Decimal.uint) :
  has_comma (NilEmpty.string_of_uint d) = false.
Proof. induction d; cbn; assumption || reflexivity. Qed.

Lemma dec_no_comma (n : Z) : has_comma (dec n) = false.
Proof.
  unfold dec. destruct (Z.to_int n) as [d|d];
    cbn [NilZero.string_of_int has_comma Ascii.eqb Bool.eqb orb];
    destruct d; try reflexivity; apply digits_no_comma.
Qed.

Lemma dec_inj (a b : Z) : dec a = dec b -> a = b.
Proof.
  unfold dec. intros H.
  assert (Hne : forall z, Z.to_int z <> Decimal.Pos Decimal.Nil /\
                          Z.to_int z <> Decimal.Neg Decimal.Nil).
  { intros [|p|p]; cbn; split; try discriminate;
      intros E; injection E as E; exact (Unsigned.to_uint_nonnil p E). }
  pose proof (NilZero.isi (Z.to_int a) (proj1 (Hne a)) (proj2 (Hne a))) as Ha.
  pose proof (NilZero.isi (Z.to_int b) (proj1 (Hne b)) (proj2 (Hne b))) as Hb.
  rewrite H, Hb in Ha. injection Ha as Ha. symmetry. now apply DecimalZ.to_int_inj.
Qed.

Lemma cut_at_comma (a : string) :
  forall a' b b',
  has_comma a = false -> has_comma a' = false ->
  (a ++ "," ++ b = a' ++ "," ++ b')%string -> a = a' /\ b = b'.
Proof.
  induction a as [|c a IH]; intros [|c' a'] b b' Ha Ha' H;
    cbn [append has_comma] in *.
  - injection H as H. split; [reflexivity | exact H].
  - injection H as Hc _. subst c'. cbn in Ha'. discriminate Ha'.
  - injection H as Hc _. subst c. cbn in Ha. discriminate Ha.
  - injection H as Hc H. subst c'.
    apply orb_false_iff in Ha, Ha'.
    destruct (IH a' b b' (proj2 Ha) (proj2 Ha') H) as [-> ->].
    split; reflexivity.
Qed.

Lemma id_no_comma (s : State) : has_comma (id s) = false.
Proof. destruct s; reflexivity. Qed.

Lemma id_inj (s s' : State) : id s = id s' -> s = s'.
Proof. destruct s, s'; cbn; intros H; try reflexivity; discriminate H. Qed.

(** X14: the record [setupSerialOutput] builds has a comma after the
    state identifier and one after the temperature and no other, and two
    records are equal only when the state, the floored temperature and
    the setpoint are: the receiver can read the three fields back. *)
Theorem X14_record_reads_back (thSensor : nat -> Q)
    (m1 m2 : TemperatureMachine) :
  fst (setupSerialOutput thSensor m1) = fst (setupSerialOutput thSensor m2) ->
  current_state m1 = current_state m2 /\
  Qfloor ((9#5) * thSensor (reads m1) + 32) =
    Qfloor ((9#5) * thSensor (reads m2) + 32) /\
  setPoint m1 = setPoint m2 /\
  has_comma (id (current_state m1)) = false /\
  has_comma (dec (Qfloor ((9#5) * thSensor (reads m1) + 32))) = false /\
  has_comma (dec (setPoint m1)) = false.
Proof.
  unfold setupSerialOutput. rewrite !getFahrenheit_spec.
  unfold ThermostatObs.fahrenheit_at. cbn [fst current_state setPoint].
  intros H.
  destruct (cut_at_comma _ _ _ _ (id_no_comma _) (id_no_comma _) H)
    as [Hid H'].
  destruct (cut_at_comma _ _ _ _ (dec_no_comma _) (dec_no_comma _) H')
    as [Ht Hp].
  split; [now apply id_inj|]. split; [now apply dec_inj|].
  split; [now apply dec_inj|].
  split; [apply id_no_comma|]. split; apply dec_no_comma.
Qed.

(** ** The theorems at concrete inputs *)

Lemma X10_lights_follow_mode_witness :
  lights_follow machine0 /\
  lights_follow (machine (after (room 20) wallclock one_press machine0 40)) /\
  lit (redLight (machine (after (room 20) wallclock one_press machine0 40)))
  && lit (blueLight (machine (after (room 20) wallclock one_press machine0 40)))
  = false.
Proof.
  assert (H : lights_follow machine0) by (split; reflexivity).
  split; [exact H|].
  destruct (X10_lights_follow_mode (room 20) wallclock one_press machine0
              greenButton 40) as (_ & _ & H3).
  destruct (H3 H) as (H4 & H5 & _). split; [exact H4 | exact H5].
Defined.

Lemma X11_updateLights_again_witness :
  Qfloor (fahrenheit_at (room 20) (S (reads machine0))) =
    Qfloor (fahrenheit_at (room 20) (reads machine0)) /\
  updateLights (room 20) (updateLights (room 20) machine0) =
  mkTM (current_state (updateLights (room 20) machine0))
       (setPoint (updateLights (room 20) machine0))
       (redLight (updateLights (room 20) machine0))
       (blueLight (updateLights (room 20) machine0))
       (S (S (reads machine0))).
Proof.
  split; [reflexivity|].
  apply (X11_updateLights_again (room 20) machine0). reflexivity.
Defined.

Lemma X13_pulse_thresholds_witness :
  inject_Z 69 < (9#5) * room (207#10) 0%nat + 32 /\
  blueLight (updateLights (room (207#10)) (mkTM cool 68 LedOff LedOff 0)) =
    LedPulse 1 1 /\
  blueLight (updateLights (room (207#10)) (mkTM cool 69 LedOff LedOff 0)) =
    LedOn /\
  redLight (updateLights (room (207#10)) (mkTM heat 70 LedOff LedOff 0)) =
    LedPulse 1 1 /\
  redLight (updateLights (room (207#10)) (mkTM heat 69 LedOff LedOff 0)) =
    LedOn.
Proof.
  split; [vm_compute; reflexivity|].
  split.
  { apply (X13_pulse_thresholds (room (207#10))
             (mkTM cool 68 LedOff LedOff 0));
      [reflexivity | vm_compute; discriminate]. }
  split.
  { apply (X13_pulse_thresholds (room (207#10))
             (mkTM cool 69 LedOff LedOff 0));
      [reflexivity | vm_compute; reflexivity]. }
  split.
  { apply (X13_pulse_thresholds (room (207#10))
             (mkTM heat 70 LedOff LedOff 0));
      [reflexivity | vm_compute; reflexivity]. }
  apply (X13_pulse_thresholds (room (207#10))
           (mkTM heat 69 LedOff LedOff 0));
    [reflexivity | vm_compute; discriminate].
Defined.

Lemma X14_record_reads_back_witness :
  fst (setupSerialOutput (room 20) machine0) =
    fst (setupSerialOutput (room 20) (mkTM off 72 LedOn LedOff 7)) /\
  current_state machine0 = off /\
  Qfloor ((9#5) * room 20 0%nat + 32) = Qfloor ((9#5) * room 20 7%nat + 32).
Proof.
  assert (H : fst (setupSerialOutput (room 20) machine0) =
              fst (setupSerialOutput (room 20) (mkTM off 72 LedOn LedOff 7)))
    by reflexivity.
  split; [exact H|].
  destruct (X14_record_reads_back (room 20) machine0
              (mkTM off 72 LedOn LedOff 7) H) as (H1 & H2 & _).
  split; [exact H1 | exact H2].
Defined.

End ThermostatExtra.
